(** * The notification service of ags: [src/service/notifications.ts]

    A shallow embedding of the [NotificationsService] class and proofs about
    its registry, its id allocation, its lifecycle calls and its cache file.

    Conventions of the embedding.
    - A JavaScript [number] that holds an id, a counter or a timestamp is a
      double with an integer value, written as that integer in [Z]; the
      urgency hint, a D-Bus byte, is an [N].  Adding one rounds to the
      nearest double ([js_add1]), which is the exact sum up to 2^53 and not
      beyond, and the conversion to a string is the one of the language
      ([string_of_Z]): all digits below 2^53, the shortest digits that
      read back as the same double above, in exponent form from 10^21.
    - [undefined] and [null] are [None]: an optional property ([appEntry]),
      an out-of-bounds array read ([acts[i + 1]], [_URGENCY[i]]) and a
      nullable result ([image]) are all [option].
    - [Map<number, Notification>] iterates in insertion order and [_cache]
      and [_readFromFile] depend on that order, so the registry is an
      association list ([JsMap]) rather than an unordered finite map.
    - The class mutates [this], the cache file and the outside world (bus
      signals, service events, timers); the methods are written in a state
      monad over [World], which holds the service fields, the content of the
      cache file and the trace of effects performed so far.
    - The content of [notifications.json] is kept as the array of objects
      that [JSON.stringify] was given: [JSON.parse] gives back an array of
      objects with the same defined properties, and a property that was
      [undefined] is absent from the text and reads as [undefined] again.
    - [_dbus] is declared [_dbus!: Gio.DBusExportedObject], a type without
      [undefined]; the embedding follows the declaration, so [emit_signal]
      always succeeds. *)

From Stdlib Require Import ZArith NArith List String Ascii Bool Lia.
From Stdlib Require Import DecimalString Sorted.
Import ListNotations.

Local Open Scope string_scope.
Local Open Scope list_scope.
Local Open Scope Z_scope.

(** ** JavaScript values *)

(** [a || d] on an optional number: [undefined] and [0] are falsy. *)
Definition or_num (a : option N) (d : N) : N :=
  match a with
  | Some (Npos p) => Npos p
  | _ => d
  end.

(** [a || d] on an optional integer setting. *)
Definition or_int (a : option Z) (d : Z) : Z :=
  match a with
  | Some 0 => d
  | Some z => z
  | None => d
  end.

(** [a || b] on nullable strings: [null] and the empty string are falsy. *)
Definition or_str (a b : option string) : option string :=
  match a with
  | Some EmptyString => b
  | Some s => Some s
  | None => b
  end.

(** [x !== ''] where [x] may be [undefined]. *)
Definition strict_ne_empty (x : option string) : bool :=
  match x with
  | Some EmptyString => false
  | _ => true
  end.

(** 2^53: up to here every integer is a double. *)
Definition two_53 : Z := 9007199254740992.

(** The double nearest to the integer [z], ties to the even significand.
    Up to 2^53 it is [z]; beyond, [z] is cut to its 53 leading bits [q] and
    the [e] bits cut off decide whether [q] goes up by one.  It is applied
    to [x + 1] for a double [x] only, which rounds to [x] again long before
    the largest double, so no infinity arises. *)
Definition round_double (z : Z) : Z :=
  let a := Z.abs z in
  if a <=? two_53 then z
  else
    let e := Z.log2 a - 52 in
    let q := Z.shiftr a e in
    let r := a - Z.shiftl q e in
    let half := Z.shiftl 1 (e - 1) in
    let q' := if (half <? r) || ((r =? half) && Z.odd q) then q + 1 else q in
    Z.sgn z * Z.shiftl q' e.

(** [x + 1] and the value that [x++] leaves, on doubles. *)
Definition js_add1 (x : Z) : Z := round_double (x + 1).

(** All the decimal digits of an integer. *)
Definition decimal (z : Z) : string := NilZero.string_of_int (Z.to_int z).

(** The value with [k] significant digits that reads back as the double [x]
    and is nearest to it, if there is one; [x] has [digits] digits. *)
Definition shortest_with (x digits k : Z) : option Z :=
  if digits <? k then Some x
  else
    let p := 10 ^ (digits - k) in
    let lo := (x / p) * p in
    let hi := lo + p in
    match round_double lo =? x, round_double hi =? x with
    | true, true =>
        if x - lo <? hi - x then Some lo
        else if hi - x <? x - lo then Some hi
        else if Z.even (x / p) then Some lo else Some hi
    | true, false => Some lo
    | false, true => Some hi
    | false, false => None
    end.

(** The value with the fewest significant digits that reads back as [x]. *)
Fixpoint shortest_value (x digits : Z) (ks : list Z) : Z :=
  match ks with
  | [] => x
  | k :: ks' =>
      match shortest_with x digits k with
      | Some v => v
      | None => shortest_value x digits ks'
      end
  end.

Fixpoint drop_trailing_zeros (s : string) : string :=
  match s with
  | EmptyString => EmptyString
  | String c r =>
      match drop_trailing_zeros r with
      | EmptyString =>
          if Ascii.eqb c "0" then EmptyString else String c EmptyString
      | r' => String c r'
      end
  end.

(** [d.ddde+n]: the significant digits of [v] and its number of digits less
    one. *)
Definition exponent_form (v : Z) : string :=
  let n := Z.of_nat (String.length (decimal v)) in
  match drop_trailing_zeros (decimal v) with
  | String c EmptyString => String c ("e+" ++ decimal (n - 1))
  | String c rest => String c ("." ++ rest ++ "e+" ++ decimal (n - 1))
  | EmptyString => decimal v
  end.

(** The string of a positive double with an integer value: below 2^53 its
    digits; above, the shortest digits that read back as the same double,
    followed by zeros up to 21 digits and in exponent form beyond. *)
Definition string_of_positive (x : Z) : string :=
  if x <? two_53 then decimal x
  else
    let digits := Z.of_nat (String.length (decimal x)) in
    let v := shortest_value x digits (map Z.of_nat (seq 1 17)) in
    if Z.of_nat (String.length (decimal v)) <=? 21 then decimal v
    else exponent_form v.

(** Template-literal conversion of a number: [`${id}`]. *)
Definition string_of_Z (z : Z) : string :=
  match z with
  | 0 => "0"
  | Zpos _ => string_of_positive z
  | Zneg _ => String "-" (string_of_positive (- z))
  end.

Arguments round_double : simpl never.
Arguments js_add1 : simpl never.
Arguments string_of_Z : simpl never.

(** The character class [[a-zA-Z0-9]]. *)
Definition is_alnum (c : ascii) : bool :=
  let n := nat_of_ascii c in
  ((97 <=? n) && (n <=? 122) || (65 <=? n) && (n <=? 90)
   || (48 <=? n) && (n <=? 57))%nat.

(** [name.replace(/[^a-zA-Z0-9]/g, '')]. *)
Fixpoint strip_non_alnum (s : string) : string :=
  match s with
  | EmptyString => EmptyString
  | String c r =>
      if is_alnum c then String c (strip_non_alnum r) else strip_non_alnum r
  end.

(** ** [Map<number, V>] with insertion order *)

Module JsMap.
Section Ops.
Context {V : Type}.

Definition t := list (Z * V).

Definition empty : t := [].

Fixpoint get (k : Z) (m : t) : option V :=
  match m with
  | [] => None
  | (k', v) :: r => if k' =? k then Some v else get k r
  end.

Definition has (k : Z) (m : t) : bool :=
  match get k m with
  | Some _ => true
  | None => false
  end.

(** [set] replaces the value of an existing key where it stands and appends
    a new key at the end. *)
Fixpoint set (k : Z) (v : V) (m : t) : t :=
  match m with
  | [] => [(k, v)]
  | (k', v') :: r => if k' =? k then (k, v) :: r else (k', v') :: set k v r
  end.

(** A [Map] holds a key once, so taking out the entries with key [k] takes
    out the one entry that [delete] removes. *)
Definition delete (k : Z) (m : t) : t :=
  filter (fun e => negb (fst e =? k)) m.

Definition keys (m : t) : list Z := map fst m.

Definition values (m : t) : list V := map snd m.

End Ops.
Arguments t : clear implicits.
End JsMap.

(** ** The data model *)

Module Action.
(** [interface action]; [label] is [acts[i + 1]], which is [undefined] past
    the end of the array. *)
Record t := mk {
  id : string;
  label : option string
}.
End Action.

Module Notification.
(** [interface Notification], as the object is at run time.  [urgency] is an
    array read and may be [undefined]; [action] is the extra property that
    [_cache] writes into the objects of the cache file ([None] where the
    object has no such property). *)
Record t := mk {
  id : Z;
  appName : string;
  appEntry : option string;
  appIcon : string;
  summary : string;
  body : string;
  actions : list Action.t;
  urgency : option string;
  time : Z;
  image : option string;
  popup : bool;
  action : option (list Action.t)
}.

(** [n.popup = b]. *)
Definition set_popup (b : bool) (n : t) : t :=
  mk (id n) (appName n) (appEntry n) (appIcon n) (summary n) (body n)
     (actions n) (urgency n) (time n) (image n) b (action n).

(** [{ ...n, action: [], popup: false }]. *)
Definition spread_action_popup (n : t) : t :=
  mk (id n) (appName n) (appEntry n) (appIcon n) (summary n) (body n)
     (actions n) (urgency n) (time n) (image n) false (Some []).
End Notification.

(** The [image-data] hint, a [(iiibiiay)] structure. *)
Record ImageData := {
  width : Z;
  height : Z;
  rowstride : Z;
  has_alpha : bool;
  bits_per_sample : Z;
  channels : Z;
  pixels : list N
}.

(** [interface Hints]: each entry may be absent. *)
Record Hints := {
  image_data : option ImageData;
  desktop_entry : option string;
  hint_urgency : option N
}.

Definition no_hints : Hints :=
  {| image_data := None; desktop_entry := None; hint_urgency := None |}.

Definition _URGENCY : list string := ["low"; "normal"; "critical"].

(** ** The service, its surroundings and the monad of its methods *)

Record NotificationsService := {
  _notifications : JsMap.t Notification.t;
  _dnd : bool;
  _idCount : Z;
  _timeout : Z
}.

Inductive Variant :=
| Variant_uu (a b : Z)
| Variant_us (a : Z) (s : string).

(** What a method does to the outside, in the order it does it. *)
Inductive Effect :=
| Emit (signal : string) (arg : option Z)
| EmitSignal (name : string) (v : Variant)
| Timeout (ms : Z) (dismiss_id : Z)
| EnsureDirectory
| WriteFile (doc : list Notification.t)
| SavePng (fileName : string) (data : ImageData).

Record World := {
  this : NotificationsService;
  cache_file : option (list Notification.t);
  trace : list Effect
}.

(** What a [Notify] call reads from outside: the clock and the file test. *)
Record Env := {
  now_unix : Z;
  file_test_exists : string -> bool
}.

Definition M (A : Type) : Type := World -> A * World.

Definition ret {A} (a : A) : M A := fun w => (a, w).

Definition bind {A B} (m : M A) (k : A -> M B) : M B :=
  fun w => let (a, w') := m w in k a w'.

Notation "x <- m ;; k" := (bind m (fun x => k))
  (at level 61, m at next level, right associativity).
Notation "m ;;; k" := (bind m (fun _ => k))
  (at level 61, right associativity).

Definition get_this : M NotificationsService := fun w => (this w, w).

Definition put_this (s : NotificationsService) : M unit :=
  fun w => (tt, {| this := s; cache_file := cache_file w; trace := trace w |}).

Definition perform (e : Effect) : M unit :=
  fun w => (tt, {| this := this w; cache_file := cache_file w;
                   trace := trace w ++ [e] |}).

Definition emit (signal : string) (arg : option Z) : M unit :=
  perform (Emit signal arg).

Definition emit_signal (name : string) (v : Variant) : M unit :=
  perform (EmitSignal name v).

Definition timeout (ms : Z) (dismiss_id : Z) : M unit :=
  perform (Timeout ms dismiss_id).

Definition ensureDirectory : M unit := perform EnsureDirectory.

Definition readFile : M (option (list Notification.t)) :=
  fun w => (cache_file w, w).

Definition writeFile (doc : list Notification.t) : M unit :=
  fun w => (tt, {| this := this w; cache_file := Some doc;
                   trace := trace w ++ [WriteFile doc] |}).

Definition set_notifications (m : JsMap.t Notification.t) : M unit :=
  s <- get_this ;;
  put_this {| _notifications := m; _dnd := _dnd s;
              _idCount := _idCount s; _timeout := _timeout s |}.

Definition set_idCount (c : Z) : M unit :=
  s <- get_this ;;
  put_this {| _notifications := _notifications s; _dnd := _dnd s;
              _idCount := c; _timeout := _timeout s |}.

(** [this._idCount++]: the value before the increment. *)
Definition post_increment_idCount : M Z :=
  s <- get_this ;;
  set_idCount (js_add1 (_idCount s)) ;;;
  ret (_idCount s).

(** ** The methods *)

(** [set dnd(value)]. *)
Definition set_dnd (value : bool) : M unit :=
  s <- get_this ;;
  put_this {| _notifications := _notifications s; _dnd := value;
              _idCount := _idCount s; _timeout := _timeout s |} ;;;
  emit "changed" None.

(** [get popups()]: a new map, filled in the order of the registry with
    the entries whose popup flag is set. *)
Definition popups (s : NotificationsService) : JsMap.t Notification.t :=
  fold_left
    (fun map e =>
       if Notification.popup (snd e) then JsMap.set (fst e) (snd e) map
       else map)
    (_notifications s) JsMap.empty.

(** [_cache()]. *)
Definition _cache : M unit :=
  s <- get_this ;;
  let notifications :=
    map Notification.spread_action_popup (JsMap.values (_notifications s)) in
  ensureDirectory ;;;
  writeFile notifications.

(** [_isFile(path)]. *)
Definition _isFile (env : Env) (path : string) : option string :=
  if file_test_exists env path then Some path else None.

(** [_parseImage(name, image_data)]. *)
Definition _parseImage (name : string) (image_data : option ImageData)
  : M (option string) :=
  match image_data with
  | None => ret None
  | Some image =>
      ensureDirectory ;;;
      let fileName := strip_non_alnum name in
      perform (SavePng fileName image) ;;;
      ret (Some fileName)
  end.

(** The loop of [Notify] over [acts], [i] stepping by two.  One unit of
    [fuel] is one test of [i < acts.length]. *)
Fixpoint actions_loop (fuel : nat) (acts : list string) (i : nat)
  (actions : list Action.t) : list Action.t :=
  match fuel with
  | O => actions
  | S fuel' =>
      if (i <? List.length acts)%nat then
        let actions' :=
          if strict_ne_empty (nth_error acts (i + 1))
          then actions ++ [ {| Action.label := nth_error acts (i + 1);
                               Action.id := nth i acts "" |} ]
          else actions in
        actions_loop fuel' acts (i + 2) actions'
      else actions
  end.

Definition parse_actions (acts : list string) : list Action.t :=
  actions_loop (S (List.length acts)) acts 0 [].

(** The urgency that [Notify] stores:
    [_URGENCY[hints['urgency']?.unpack() || 1]]. *)
Definition decode_urgency (hints : Hints) : option string :=
  nth_error _URGENCY (N.to_nat (or_num (hint_urgency hints) 1)).

(** [DismissNotification(id)]. *)
Definition DismissNotification (id : Z) : M unit :=
  s <- get_this ;;
  match JsMap.get id (_notifications s) with
  | None => ret tt
  | Some n =>
      set_notifications
        (JsMap.set id (Notification.set_popup false n) (_notifications s)) ;;;
      emit "dismissed" (Some id) ;;;
      emit "changed" None
  end.

(** [CloseNotification(id)]. *)
Definition CloseNotification (id : Z) : M unit :=
  s <- get_this ;;
  if negb (JsMap.has id (_notifications s)) then ret tt
  else
    emit_signal "NotificationClosed" (Variant_uu id 3) ;;;
    set_notifications (JsMap.delete id (_notifications s)) ;;;
    emit "closed" (Some id) ;;;
    emit "changed" None ;;;
    _cache.

(** [InvokeAction(id, actionId)]. *)
Definition InvokeAction (id : Z) (actionId : string) : M unit :=
  s <- get_this ;;
  if negb (JsMap.has id (_notifications s)) then ret tt
  else
    emit_signal "ActionInvoked" (Variant_us id actionId) ;;;
    CloseNotification id ;;;
    _cache.

(** [Notify(appName, replacesId, appIcon, summary, body, acts, hints)]. *)
Definition Notify (env : Env) (appName : string) (replacesId : Z)
  (appIcon summary body : string) (acts : list string) (hints : Hints)
  : M Z :=
  let actions := parse_actions acts in
  id <- (if replacesId =? 0 then post_increment_idCount else ret replacesId) ;;
  let urgency := decode_urgency hints in
  parsed <- _parseImage (summary ++ string_of_Z id)%string (image_data hints) ;;
  s <- get_this ;;
  set_notifications
    (JsMap.set id
       {| Notification.id := id;
          Notification.appName := appName;
          Notification.appEntry := desktop_entry hints;
          Notification.appIcon := appIcon;
          Notification.summary := summary;
          Notification.body := body;
          Notification.actions := actions;
          Notification.urgency := urgency;
          Notification.time := now_unix env;
          Notification.image := or_str parsed (_isFile env appIcon);
          Notification.popup := negb (_dnd s);
          Notification.action := None |}
       (_notifications s)) ;;;
  timeout (_timeout s) id ;;;
  _cache ;;;
  emit "notified" (Some id) ;;;
  emit "changed" None ;;;
  ret id.

(** One step of the [forEach] of [_readFromFile]. *)
Definition read_one (n : Notification.t) : M unit :=
  s <- get_this ;;
  (if Notification.id n >? _idCount s
   then set_idCount (js_add1 (Notification.id n)) else ret tt) ;;;
  s' <- get_this ;;
  set_notifications (JsMap.set (Notification.id n) n (_notifications s')).

Fixpoint forEach {A} (f : A -> M unit) (l : list A) : M unit :=
  match l with
  | [] => ret tt
  | a :: r => f a ;;; forEach f r
  end.

(** [_readFromFile()]. *)
Definition _readFromFile : M unit :=
  file <- readFile ;;
  match file with
  | None => ret tt
  | Some notifications =>
      forEach read_one notifications ;;;
      emit "changed" None
  end.

(** [Clear()]: deleting the entry being visited does not disturb the
    iteration of a [Map], so every key present at the start is closed. *)
Definition Clear : M unit :=
  s <- get_this ;;
  forEach CloseNotification (JsMap.keys (_notifications s)).

(** [new NotificationsService()] with the configured popup timeout and the
    cache file found on disk. *)
Definition construct (notificationPopupTimeout : option Z)
  (file : option (list Notification.t)) : World :=
  snd (_readFromFile
         {| this := {| _notifications := JsMap.empty; _dnd := false;
                       _idCount := 0;
                       _timeout := or_int notificationPopupTimeout 3000 |};
            cache_file := file;
            trace := [] |}).

(** A recorded [Notify] call and a run of such calls, in order. *)
Record NotifyCall := {
  c_env : Env;
  c_appName : string;
  c_replacesId : Z;
  c_appIcon : string;
  c_summary : string;
  c_body : string;
  c_acts : list string;
  c_hints : Hints
}.

Definition call (c : NotifyCall) : M Z :=
  Notify (c_env c) (c_appName c) (c_replacesId c) (c_appIcon c) (c_summary c)
         (c_body c) (c_acts c) (c_hints c).

Fixpoint run_calls (cs : list NotifyCall) : M (list Z) :=
  match cs with
  | [] => ret []
  | c :: r =>
      id <- call c ;;
      ids <- run_calls r ;;
      ret (id :: ids)
  end.

(** Saving the registry and starting a new service on the file written. *)
Definition save_and_reload (w : World) : World :=
  construct None (cache_file (snd (_cache w))).

(** ** What the definitions compute, derived for the statements *)

(** The actions list as the data model describes it: consecutive elements
    paired, a pair with an empty label left out.  A last element without a
    partner is paired with [undefined]. *)
Fixpoint pair_actions (acts : list string) : list Action.t :=
  match acts with
  | [] => []
  | [i] => [ {| Action.id := i; Action.label := None |} ]
  | i :: l :: rest =>
      match l with
      | EmptyString => pair_actions rest
      | _ => {| Action.id := i; Action.label := Some l |} :: pair_actions rest
      end
  end.

(** The id that [Notify] uses in world [w]. *)
Definition Notify_id (replacesId : Z) (w : World) : Z :=
  if replacesId =? 0 then _idCount (this w) else replacesId.

(** The counter that [Notify] leaves. *)
Definition Notify_idCount (replacesId : Z) (w : World) : Z :=
  if replacesId =? 0 then js_add1 (_idCount (this w)) else _idCount (this w).

(** The record that [Notify] stores under [id]. *)
Definition Notify_record (env : Env) (id : Z) (appName appIcon summary body
  : string) (acts : list string) (hints : Hints) (dnd : bool)
  : Notification.t :=
  {| Notification.id := id;
     Notification.appName := appName;
     Notification.appEntry := desktop_entry hints;
     Notification.appIcon := appIcon;
     Notification.summary := summary;
     Notification.body := body;
     Notification.actions := parse_actions acts;
     Notification.urgency := decode_urgency hints;
     Notification.time := now_unix env;
     Notification.image :=
       or_str
         (match image_data hints with
          | Some _ => Some (strip_non_alnum (summary ++ string_of_Z id)%string)
          | None => None
          end)
         (_isFile env appIcon);
     Notification.popup := negb dnd;
     Notification.action := None |}.

(** What [_parseImage] does to the outside. *)
Definition image_effects (name : string) (image_data : option ImageData)
  : list Effect :=
  match image_data with
  | Some d => [EnsureDirectory; SavePng (strip_non_alnum name) d]
  | None => []
  end.

(** The array that [_cache] writes for a registry. *)
Definition cache_doc (m : JsMap.t Notification.t) : list Notification.t :=
  map Notification.spread_action_popup (JsMap.values m).

(** Every key is the id of its record and no key occurs twice: what holds
    of the registry of a running service. *)
Definition registry_ok (m : JsMap.t Notification.t) : Prop :=
  NoDup (JsMap.keys m) /\
  Forall (fun e => fst e = Notification.id (snd e)) m.

(** The registry after the [forEach]: the records set one after the other
    under their own ids. *)
Definition set_all (l : list Notification.t) (m : JsMap.t Notification.t)
  : JsMap.t Notification.t :=
  fold_left (fun m n => JsMap.set (Notification.id n) n m) l m.

(** The counter after the [forEach]. *)
Definition advance_all (l : list Notification.t) (c : Z) : Z :=
  fold_left (fun c n => if Notification.id n >? c
                        then js_add1 (Notification.id n) else c) l c.

(** The properties of a world that every request keeps. *)
Definition world_ok (w : World) : Prop :=
  registry_ok (_notifications (this w)) /\ 0 <= _idCount (this w).

(** ** Concrete runs used below *)

Definition env0 : Env :=
  {| now_unix := 1700000000; file_test_exists := fun _ => false |}.

Definition urgency_hint (b : N) : Hints :=
  {| image_data := None; desktop_entry := None; hint_urgency := Some b |}.

(** A service started without configuration and without a cache file. *)
Definition fresh : World := construct None None.

(** The first call ever made to a fresh service, with one action. *)
Definition first_notify : M Z :=
  Notify env0 "App" 0 "icon.png" "Hi" "body" ["a1"; "Open"] no_hints.

(** The service after that call, and a second service started on the cache
    file the first one wrote. *)
Definition after_first : World := snd (first_notify fresh).

Definition restarted : World := construct None (cache_file after_first).

(** A cache file with the ids 5 and 6, as two plain records. *)
Definition plain_record (id : Z) : Notification.t :=
  Notification.spread_action_popup
    (Notify_record env0 id "App" "" "Hi" "body" [] no_hints false).

Definition restarted_5_6 : World :=
  construct None (Some [plain_record 5; plain_record 6]).

(** Hints with a one-pixel image. *)
Definition image_hint : Hints :=
  {| image_data :=
       Some {| width := 1; height := 1; rowstride := 3; has_alpha := false;
               bits_per_sample := 8; channels := 3;
               pixels := [0%N; 0%N; 0%N] |};
     desktop_entry := None;
     hint_urgency := None |}.

(** A cache file with the last id below 2^53. *)
Definition restarted_at_limit : World :=
  construct None (Some [plain_record (two_53 - 1)]).

(** Three calls: one that supplies the id 1 itself, then two that ask for a
    new id. *)
Definition supplied_call : NotifyCall :=
  {| c_env := env0; c_appName := "First"; c_replacesId := 1;
     c_appIcon := ""; c_summary := "kept?"; c_body := ""; c_acts := [];
     c_hints := no_hints |}.

Definition allocating_call (appName : string) : NotifyCall :=
  {| c_env := env0; c_appName := appName; c_replacesId := 0;
     c_appIcon := ""; c_summary := "new"; c_body := ""; c_acts := [];
     c_hints := no_hints |}.

Definition after_supplied : World := snd (call supplied_call fresh).

(** What [CloseNotification] does to the outside when it closes [id] in the
    registry [m]. *)
Definition close_effects (id : Z) (m : JsMap.t Notification.t)
  : list Effect :=
  [EmitSignal "NotificationClosed" (Variant_uu id 3);
   Emit "closed" (Some id);
   Emit "changed" None;
   EnsureDirectory;
   WriteFile (cache_doc (JsMap.delete id m))].

(** Two records that agree on every property but [popup]. *)
Definition same_but_popup (n n' : Notification.t) : Prop :=
  Notification.id n' = Notification.id n /\
  Notification.appName n' = Notification.appName n /\
  Notification.appEntry n' = Notification.appEntry n /\
  Notification.appIcon n' = Notification.appIcon n /\
  Notification.summary n' = Notification.summary n /\
  Notification.body n' = Notification.body n /\
  Notification.actions n' = Notification.actions n /\
  Notification.urgency n' = Notification.urgency n /\
  Notification.time n' = Notification.time n /\
  Notification.image n' = Notification.image n /\
  Notification.action n' = Notification.action n.

(** ** The service as a state machine *)

(** What can be asked of a running service: the bus methods, the facade's
    calls, the do-not-disturb setter.  A timer that expires asks for
    [ReqDismiss]. *)
Inductive Request :=
| ReqNotify (c : NotifyCall)
| ReqDismiss (id : Z)
| ReqClose (id : Z)
| ReqInvoke (id : Z) (actionId : string)
| ReqSetDnd (value : bool)
| ReqClear.

Definition serve (r : Request) (w : World) : World :=
  match r with
  | ReqNotify c => snd (call c w)
  | ReqDismiss id => snd (DismissNotification id w)
  | ReqClose id => snd (CloseNotification id w)
  | ReqInvoke id actionId => snd (InvokeAction id actionId w)
  | ReqSetDnd value => snd (set_dnd value w)
  | ReqClear => snd (Clear w)
  end.

(** The ids that serving a request returns to its caller. *)
Definition returned (r : Request) (w : World) : list Z :=
  match r with
  | ReqNotify c => [fst (call c w)]
  | _ => []
  end.

(** Requests served one after the other, with the ids returned on the way. *)
Fixpoint serve_all (rs : list Request) (w : World) : list Z * World :=
  match rs with
  | [] => ([], w)
  | r :: rs' =>
      let (ids, w') := serve_all rs' (serve r w) in
      (returned r w ++ ids, w')
  end.

(** A request that is not a [Notify] with an id of the caller's. *)
Definition allocating (r : Request) : Prop :=
  match r with
  | ReqNotify c => c_replacesId c = 0
  | _ => True
  end.

(** The worlds a service can be in: as constructed, on any configuration
    and cache file, and after any request served from such a world. *)
Inductive reachable : World -> Prop :=
| reachable_construct (t : option Z) (file : option (list Notification.t)) :
    reachable (construct t file)
| reachable_serve (r : Request) (w : World) :
    reachable w -> reachable (serve r w).

(** ** The rest of the class, for the properties of whole runs *)

(** A new service started on the cache file as world [w] has it. *)
Definition restart (notificationPopupTimeout : option Z) (w : World) : World :=
  construct notificationPopupTimeout (cache_file w).

(** The bus signals of a trace, in order. *)
Definition bus_signals (tr : list Effect) : list Effect :=
  filter (fun e => match e with EmitSignal _ _ => true | _ => false end) tr.

(** The timers of a trace, in order. *)
Definition timers (tr : list Effect) : list Effect :=
  filter (fun e => match e with Timeout _ _ => true | _ => false end) tr.

(** The cache file is what [_cache] would write for the registry now. *)
Definition in_sync (w : World) : Prop :=
  cache_file w = Some (cache_doc (_notifications (this w))).

(** The shapes of what the service does to the outside: a file of records
    that are no popups, the two bus signals with the one close reason, the
    four service events, timers, directories and image files. *)
Definition effect_ok (e : Effect) : Prop :=
  match e with
  | WriteFile doc => Forall (fun n => Notification.popup n = false) doc
  | EmitSignal name v =>
      (exists id, name = "NotificationClosed" /\ v = Variant_uu id 3) \/
      (exists id actionId,
          name = "ActionInvoked" /\ v = Variant_us id actionId)
  | Emit signal arg =>
      (signal = "changed" /\ arg = None) \/
      (exists id,
          arg = Some id /\
          (signal = "notified" \/ signal = "dismissed" \/ signal = "closed"))
  | Timeout _ _ | EnsureDirectory | SavePng _ _ => True
  end.

(** Every character of a string is a letter or a digit. *)
Fixpoint all_alnum (s : string) : bool :=
  match s with
  | EmptyString => true
  | String c r => is_alnum c && all_alnum r
  end.

(** Every key of the registry is below the counter. *)
Definition keys_below_counter (w : World) : Prop :=
  Forall (fun k => k < _idCount (this w)) (JsMap.keys (_notifications (this w))).

(** ** Numbers *)

(** Up to 2^53 in absolute value the sum is exact. *)
Lemma js_add1_exact x : - two_53 <= x + 1 <= two_53 -> js_add1 x = x + 1.
Proof.
  intros H. unfold js_add1, round_double.
  destruct (Z.abs (x + 1) <=? two_53) eqn:E; [reflexivity|].
  apply Z.leb_gt in E. lia.
Qed.

Lemma round_double_nonneg z : 0 <= z -> 0 <= round_double z.
Proof.
  intros H. unfold round_double.
  destruct (Z.abs z <=? two_53); [exact H|].
  apply Z.mul_nonneg_nonneg; [lia|].
  apply Z.shiftl_nonneg.
  assert (0 <= Z.shiftr (Z.abs z) (Z.log2 (Z.abs z) - 52))
    by (apply Z.shiftr_nonneg; lia).
  destruct (_ || _); lia.
Qed.

Lemma js_add1_nonneg x : 0 <= x -> 0 <= js_add1 x.
Proof. intros H. apply round_double_nonneg. lia. Qed.

(** From 2^53 on adding one gives the same double again, or the next even
    significand. *)
Lemma js_add1_beyond :
  js_add1 (two_53 - 1) = two_53 /\
  js_add1 two_53 = two_53 /\
  js_add1 (two_53 + 2) = two_53 + 4 /\
  js_add1 (two_53 + 4) = two_53 + 4.
Proof. repeat split; vm_compute; reflexivity. Qed.

(** Below 2^53 the string of a number is all its digits. *)
Lemma string_of_Z_digits z : Z.abs z < two_53 -> string_of_Z z = decimal z.
Proof.
  intros H. unfold string_of_Z, string_of_positive.
  destruct z as [|p|p].
  - reflexivity.
  - assert (E : (Z.pos p <? two_53) = true) by (apply Z.ltb_lt; lia).
    now rewrite E.
  - assert (E : (- Z.neg p <? two_53) = true) by (apply Z.ltb_lt; lia).
    rewrite E. unfold decimal. simpl. reflexivity.
Qed.

(** Beyond, it is the shortest digits that read back as the double, and
    the exponent form from 10^21. *)
Lemma string_of_Z_beyond :
  string_of_Z two_53 = "9007199254740992"%string /\
  string_of_Z (2 ^ 60) = "1152921504606847000"%string /\
  string_of_Z (10 ^ 21) = "1e+21"%string /\
  string_of_Z (2 ^ 70) = "1.1805916207174113e+21"%string /\
  string_of_Z (- 10 ^ 22) = "-1e+22"%string.
Proof. repeat split; vm_compute; reflexivity. Qed.

(** ** The registry as a map *)

Section JsMapFacts.
Context {V : Type}.
Implicit Types (m : JsMap.t V) (k : Z) (v : V).

Lemma get_set_same k v m : JsMap.get k (JsMap.set k v m) = Some v.
Proof.
  induction m as [|[k' v'] r IH]; simpl.
  - now rewrite Z.eqb_refl.
  - destruct (k' =? k) eqn:E; simpl.
    + now rewrite Z.eqb_refl.
    + now rewrite E.
Qed.

Lemma get_set_other k k' v m :
  k' <> k -> JsMap.get k' (JsMap.set k v m) = JsMap.get k' m.
Proof.
  intros Hne. induction m as [|[k0 v0] r IH]; simpl.
  - destruct (k =? k') eqn:E; [apply Z.eqb_eq in E; congruence | reflexivity].
  - destruct (k0 =? k) eqn:E; simpl.
    + apply Z.eqb_eq in E. subst k0.
      destruct (k =? k') eqn:E'; [apply Z.eqb_eq in E'; congruence|].
      reflexivity.
    + now rewrite IH.
Qed.

Lemma keys_set_present k v m :
  JsMap.has k m = true -> JsMap.keys (JsMap.set k v m) = JsMap.keys m.
Proof.
  unfold JsMap.has, JsMap.keys.
  induction m as [|[k0 v0] r IH]; simpl; [discriminate|].
  destruct (k0 =? k) eqn:E; simpl.
  - apply Z.eqb_eq in E. now subst.
  - intros H. now rewrite IH.
Qed.

Lemma set_absent k v m :
  JsMap.has k m = false -> JsMap.set k v m = m ++ [(k, v)].
Proof.
  unfold JsMap.has.
  induction m as [|[k0 v0] r IH]; simpl; [reflexivity|].
  destruct (k0 =? k) eqn:E; [discriminate|].
  intros H. now rewrite IH.
Qed.

Lemma get_delete_same k m : JsMap.get k (JsMap.delete k m) = None.
Proof.
  unfold JsMap.delete.
  induction m as [|[k0 v0] r IH]; simpl; [reflexivity|].
  destruct (k0 =? k) eqn:E; simpl; [assumption|].
  now rewrite E.
Qed.

Lemma get_delete_other k k' m :
  k' <> k -> JsMap.get k' (JsMap.delete k m) = JsMap.get k' m.
Proof.
  intros Hne. unfold JsMap.delete.
  induction m as [|[k0 v0] r IH]; simpl; [reflexivity|].
  destruct (k0 =? k) eqn:E; simpl.
  - apply Z.eqb_eq in E. subst k0.
    destruct (k =? k') eqn:E'; [apply Z.eqb_eq in E'; congruence|].
    assumption.
  - now rewrite IH.
Qed.

Lemma has_delete_same k m : JsMap.has k (JsMap.delete k m) = false.
Proof. unfold JsMap.has. now rewrite get_delete_same. Qed.

Lemma has_false_get k m : JsMap.has k m = false -> JsMap.get k m = None.
Proof. unfold JsMap.has. now destruct (JsMap.get k m). Qed.

Lemma has_true_get k m :
  JsMap.has k m = true -> exists v, JsMap.get k m = Some v.
Proof.
  unfold JsMap.has. destruct (JsMap.get k m) as [v|]; [now exists v|].
  discriminate.
Qed.

Lemma has_false_not_in k m :
  JsMap.has k m = false -> ~ In k (JsMap.keys m).
Proof.
  unfold JsMap.has, JsMap.keys.
  induction m as [|[k0 v0] r IH]; simpl; [tauto|].
  destruct (k0 =? k) eqn:E; [discriminate|].
  apply Z.eqb_neq in E. intros H [H0|H0]; [congruence | now apply IH].
Qed.

End JsMapFacts.

(** ** Each method as one step on the world *)

Ltac run_method :=
  unfold bind, ret, get_this, put_this, set_notifications, set_idCount,
    emit, emit_signal, timeout, ensureDirectory, writeFile, perform,
    readFile; simpl.

Lemma _cache_run w :
  _cache w =
  (tt, {| this := this w;
          cache_file := Some (cache_doc (_notifications (this w)));
          trace := trace w ++
                   [EnsureDirectory;
                    WriteFile (cache_doc (_notifications (this w)))] |}).
Proof.
  unfold _cache, cache_doc. run_method.
  now rewrite <- app_assoc.
Qed.

Lemma _parseImage_run name d w :
  _parseImage name d w =
  (match d with Some _ => Some (strip_non_alnum name) | None => None end,
   {| this := this w; cache_file := cache_file w;
      trace := trace w ++ image_effects name d |}).
Proof.
  destruct w as [s f t]. destruct d as [d|]; unfold _parseImage; run_method.
  - now rewrite <- app_assoc.
  - now rewrite app_nil_r.
Qed.

Lemma Notify_run env appName replacesId appIcon summary body acts hints w :
  let id := Notify_id replacesId w in
  let m :=
    JsMap.set id
      (Notify_record env id appName appIcon summary body acts hints
         (_dnd (this w)))
      (_notifications (this w)) in
  Notify env appName replacesId appIcon summary body acts hints w =
  (id,
   {| this := {| _notifications := m;
                 _dnd := _dnd (this w);
                 _idCount := Notify_idCount replacesId w;
                 _timeout := _timeout (this w) |};
      cache_file := Some (cache_doc m);
      trace := trace w
               ++ image_effects (summary ++ string_of_Z id)%string
                    (image_data hints)
               ++ [Timeout (_timeout (this w)) id;
                   EnsureDirectory;
                   WriteFile (cache_doc m);
                   Emit "notified" (Some id);
                   Emit "changed" None] |}).
Proof.
  destruct w as [[m0 dnd c t0] f tr].
  unfold Notify, Notify_id, Notify_idCount, Notify_record, cache_doc,
    post_increment_idCount, _cache.
  destruct (replacesId =? 0); destruct (image_data hints) as [d|];
    unfold _parseImage; run_method;
    repeat rewrite <- app_assoc; simpl; reflexivity.
Qed.

Lemma call_run c w :
  call c w =
  Notify (c_env c) (c_appName c) (c_replacesId c) (c_appIcon c) (c_summary c)
         (c_body c) (c_acts c) (c_hints c) w.
Proof. reflexivity. Qed.

Lemma call_allocates c w :
  c_replacesId c = 0 ->
  fst (call c w) = _idCount (this w) /\
  _idCount (this (snd (call c w))) = js_add1 (_idCount (this w)).
Proof.
  intros Hc. rewrite call_run, Notify_run. simpl.
  unfold Notify_id, Notify_idCount. rewrite Hc. simpl. auto.
Qed.

Lemma DismissNotification_live id n w :
  JsMap.get id (_notifications (this w)) = Some n ->
  DismissNotification id w =
  (tt,
   {| this := {| _notifications :=
                   JsMap.set id (Notification.set_popup false n)
                     (_notifications (this w));
                 _dnd := _dnd (this w);
                 _idCount := _idCount (this w);
                 _timeout := _timeout (this w) |};
      cache_file := cache_file w;
      trace := trace w ++ [Emit "dismissed" (Some id); Emit "changed" None]
   |}).
Proof.
  intros H. unfold DismissNotification. run_method. rewrite H. run_method.
  now rewrite <- app_assoc.
Qed.

Lemma DismissNotification_absent id w :
  JsMap.has id (_notifications (this w)) = false ->
  DismissNotification id w = (tt, w).
Proof.
  intros H. apply has_false_get in H.
  unfold DismissNotification. run_method. rewrite H. reflexivity.
Qed.

Lemma CloseNotification_live id w :
  JsMap.has id (_notifications (this w)) = true ->
  let m := JsMap.delete id (_notifications (this w)) in
  CloseNotification id w =
  (tt,
   {| this := {| _notifications := m;
                 _dnd := _dnd (this w);
                 _idCount := _idCount (this w);
                 _timeout := _timeout (this w) |};
      cache_file := Some (cache_doc m);
      trace := trace w
               ++ [EmitSignal "NotificationClosed" (Variant_uu id 3);
                   Emit "closed" (Some id);
                   Emit "changed" None;
                   EnsureDirectory;
                   WriteFile (cache_doc m)] |}).
Proof.
  intros H. unfold CloseNotification, _cache, cache_doc. run_method.
  rewrite H. run_method. repeat rewrite <- app_assoc. reflexivity.
Qed.

Lemma CloseNotification_absent id w :
  JsMap.has id (_notifications (this w)) = false ->
  CloseNotification id w = (tt, w).
Proof.
  intros H. unfold CloseNotification. run_method. now rewrite H.
Qed.

Lemma InvokeAction_live id actionId w :
  JsMap.has id (_notifications (this w)) = true ->
  let m := JsMap.delete id (_notifications (this w)) in
  InvokeAction id actionId w =
  (tt,
   {| this := {| _notifications := m;
                 _dnd := _dnd (this w);
                 _idCount := _idCount (this w);
                 _timeout := _timeout (this w) |};
      cache_file := Some (cache_doc m);
      trace := trace w
               ++ [EmitSignal "ActionInvoked" (Variant_us id actionId);
                   EmitSignal "NotificationClosed" (Variant_uu id 3);
                   Emit "closed" (Some id);
                   Emit "changed" None;
                   EnsureDirectory;
                   WriteFile (cache_doc m);
                   EnsureDirectory;
                   WriteFile (cache_doc m)] |}).
Proof.
  intros H m. unfold InvokeAction. unfold bind at 1. unfold get_this at 1.
  rewrite H. simpl. unfold bind at 1. unfold emit_signal, perform. simpl.
  unfold bind at 1.
  rewrite CloseNotification_live by exact H. simpl.
  rewrite _cache_run. simpl. fold m.
  repeat rewrite <- app_assoc. reflexivity.
Qed.

Lemma InvokeAction_absent id actionId w :
  JsMap.has id (_notifications (this w)) = false ->
  InvokeAction id actionId w = (tt, w).
Proof.
  intros H. unfold InvokeAction. run_method. now rewrite H.
Qed.

(** ** The actions loop *)

Lemma nth_error_after (pre : list string) a rest :
  nth_error (pre ++ a :: rest) (List.length pre) = Some a.
Proof. induction pre; simpl; auto. Qed.

Lemma nth_error_after_next (pre : list string) a rest :
  nth_error (pre ++ a :: rest) (List.length pre + 1) = hd_error rest.
Proof.
  induction pre; simpl; auto.
Qed.

Lemma nth_after (pre : list string) a rest :
  nth (List.length pre) (pre ++ a :: rest) "" = a.
Proof. induction pre; simpl; auto. Qed.

(** With [i] standing after the prefix [pre], the loop appends the pairing
    of what is left, whatever fuel at least half of the rest it is given. *)
Lemma actions_loop_pairs fuel :
  forall pre rest acc,
    (List.length rest <= 2 * fuel)%nat ->
    actions_loop fuel (pre ++ rest) (List.length pre) acc =
    acc ++ pair_actions rest.
Proof.
  induction fuel as [|fuel IH]; intros pre rest acc Hlen.
  - destruct rest; simpl in *; [now rewrite app_nil_r | lia].
  - cbn [actions_loop].
    destruct rest as [|a [|l rest]].
    + rewrite app_nil_r. rewrite Nat.ltb_irrefl. simpl. now rewrite app_nil_r.
    + assert (Hlt : (List.length pre <? List.length (pre ++ [a]))%nat = true).
      { apply Nat.ltb_lt. rewrite length_app. simpl. lia. }
      rewrite Hlt, nth_error_after_next, nth_after. simpl.
      replace (pre ++ [a]) with ((pre ++ [a]) ++ []) by apply app_nil_r.
      replace (List.length pre + 2)%nat with (S (List.length ((pre ++ [a]) ++ [])))
        by (rewrite app_nil_r, length_app; simpl; lia).
      clear. generalize ((pre ++ [a]) ++ []) as l.
      intros l. destruct fuel; simpl; [reflexivity|].
      assert (E : (S (List.length l) <? List.length l)%nat = false)
        by (apply Nat.ltb_ge; lia).
      now rewrite E.
    + assert (Hlt : (List.length pre <?
                     List.length (pre ++ a :: l :: rest))%nat = true).
      { apply Nat.ltb_lt. rewrite length_app. simpl. lia. }
      rewrite Hlt, nth_error_after_next, nth_after. simpl hd_error.
      replace (pre ++ a :: l :: rest) with ((pre ++ [a; l]) ++ rest)
        by (now rewrite <- app_assoc).
      replace (List.length pre + 2)%nat with (List.length (pre ++ [a; l]))
        by (rewrite length_app; simpl; lia).
      simpl in Hlen.
      destruct l as [|c l']; cbn [strict_ne_empty pair_actions].
      * apply IH. lia.
      * rewrite IH by lia. now rewrite <- app_assoc.
Qed.

Lemma parse_actions_pair_actions acts : parse_actions acts = pair_actions acts.
Proof.
  unfold parse_actions.
  apply (actions_loop_pairs (S (List.length acts)) [] acts []). lia.
Qed.

(** Any fuel that covers half the array gives the same list: the loop has
    ended by then. *)
Lemma actions_loop_fuel fuel acts :
  (List.length acts <= 2 * fuel)%nat ->
  actions_loop fuel acts 0 [] = parse_actions acts.
Proof.
  intros H. rewrite parse_actions_pair_actions.
  exact (actions_loop_pairs fuel [] acts [] H).
Qed.

(** ** Reading the cache file *)

Lemma read_one_run n w :
  read_one n w =
  (tt,
   {| this := {| _notifications :=
                   JsMap.set (Notification.id n) n (_notifications (this w));
                 _dnd := _dnd (this w);
                 _idCount := if Notification.id n >? _idCount (this w)
                             then js_add1 (Notification.id n)
                             else _idCount (this w);
                 _timeout := _timeout (this w) |};
      cache_file := cache_file w;
      trace := trace w |}).
Proof.
  destruct w as [[m d c t] f tr]. unfold read_one. run_method.
  destruct (Notification.id n >? c); reflexivity.
Qed.

Lemma forEach_read_one_run l :
  forall w,
    forEach read_one l w =
    (tt,
     {| this := {| _notifications := set_all l (_notifications (this w));
                   _dnd := _dnd (this w);
                   _idCount := advance_all l (_idCount (this w));
                   _timeout := _timeout (this w) |};
        cache_file := cache_file w;
        trace := trace w |}).
Proof.
  induction l as [|n l IH]; intros w.
  - destruct w as [[m d c t] f tr]. reflexivity.
  - cbn [forEach]. unfold bind. rewrite read_one_run. rewrite IH. reflexivity.
Qed.

Lemma construct_run t file :
  construct t (Some file) =
  {| this := {| _notifications := set_all file JsMap.empty;
                _dnd := false;
                _idCount := advance_all file 0;
                _timeout := or_int t 3000 |};
     cache_file := Some file;
     trace := [Emit "changed" None] |}.
Proof.
  unfold construct, _readFromFile. unfold bind at 1. unfold readFile. simpl.
  unfold bind. rewrite forEach_read_one_run. reflexivity.
Qed.

Lemma advance_all_nonneg l : forall c, 0 <= c -> 0 <= advance_all l c.
Proof.
  induction l as [|n l IH]; intros c Hc; simpl; [exact Hc|].
  destruct (Notification.id n >? c) eqn:E; apply IH; [|exact Hc].
  apply Z.gtb_lt in E. apply js_add1_nonneg. lia.
Qed.

Lemma advance_all_le l :
  forall c,
    0 <= c -> Forall (fun n => Notification.id n < two_53) l ->
    c <= advance_all l c.
Proof.
  induction l as [|n l IH]; intros c Hc Hl; simpl; [lia|].
  inversion Hl as [|? ? Hn Hl']; subst.
  destruct (Notification.id n >? c) eqn:E.
  - apply Z.gtb_lt in E.
    rewrite js_add1_exact by (unfold two_53 in *; lia).
    specialize (IH (Notification.id n + 1)).
    assert (0 <= Notification.id n + 1) by lia. specialize (IH H Hl'). lia.
  - now apply IH.
Qed.

(** After a file of ids below 2^53 is read the counter is at least every
    id read. *)
Lemma advance_all_bounds l :
  forall c,
    0 <= c -> Forall (fun n => Notification.id n < two_53) l ->
    Forall (fun n => Notification.id n <= advance_all l c) l.
Proof.
  induction l as [|n l IH]; intros c Hc Hl; simpl; constructor;
    inversion Hl as [|? ? Hn Hl']; subst.
  - destruct (Notification.id n >? c) eqn:E.
    + apply Z.gtb_lt in E.
      rewrite js_add1_exact by (unfold two_53 in *; lia).
      assert (0 <= Notification.id n + 1) by lia.
      pose proof (advance_all_le l (Notification.id n + 1) H Hl'). lia.
    + pose proof (advance_all_le l c Hc Hl').
      rewrite Z.gtb_ltb in E. apply Z.ltb_ge in E. lia.
  - destruct (Notification.id n >? c) eqn:E.
    + apply Z.gtb_lt in E.
      rewrite js_add1_exact by (unfold two_53 in *; lia).
      apply IH; [lia | exact Hl'].
    + now apply IH.
Qed.

Lemma loaded_ids_le_counter t file :
  Forall (fun n => Notification.id n < two_53) file ->
  Forall (fun n => Notification.id n <= _idCount (this (construct t (Some file))))
         file.
Proof.
  intros H. rewrite construct_run. simpl.
  apply advance_all_bounds; [lia | exact H].
Qed.

(** ** The invariant of the registry *)

Lemma not_in_keys_set (k k' : Z) (v : Notification.t) m :
  k' <> k -> ~ In k' (JsMap.keys m) -> ~ In k' (JsMap.keys (JsMap.set k v m)).
Proof.
  intros Hne. unfold JsMap.keys.
  induction m as [|[k0 v0] r IH]; simpl.
  - intros _ [H|[]]. congruence.
  - destruct (k0 =? k) eqn:E; simpl; intros Hn [H|H].
    + congruence.
    + tauto.
    + tauto.
    + apply IH; tauto.
Qed.

Lemma registry_ok_set k v m :
  Notification.id v = k -> registry_ok m -> registry_ok (JsMap.set k v m).
Proof.
  intros Hid [Hnd Hall]. unfold registry_ok, JsMap.keys in *.
  induction m as [|[k0 v0] r IH]; simpl.
  - split; repeat constructor; simpl; auto.
  - inversion Hnd as [|? ? Hn Hnd']; subst.
    inversion Hall as [|? ? Hk Hall']; subst.
    destruct (k0 =? Notification.id v) eqn:E; simpl.
    + apply Z.eqb_eq in E. rewrite <- E.
      split; constructor; auto.
    + apply Z.eqb_neq in E. destruct (IH Hnd' Hall') as [A B].
      split; constructor; auto.
      now apply (not_in_keys_set (Notification.id v) k0 v r).
Qed.

Lemma registry_ok_delete k m : registry_ok m -> registry_ok (JsMap.delete k m).
Proof.
  intros [Hnd Hall]. unfold registry_ok, JsMap.keys, JsMap.delete in *.
  induction m as [|[k0 v0] r IH]; simpl; [split; constructor|].
  inversion Hnd as [|? ? Hn Hnd']; subst.
  inversion Hall as [|? ? Hk Hall']; subst.
  destruct (IH Hnd' Hall') as [A B].
  destruct (k0 =? k); simpl; [split; assumption|].
  split; constructor; auto.
  intros Hin. apply Hn. simpl.
  apply in_map_iff in Hin. destruct Hin as [e [He Hin]].
  apply filter_In in Hin. apply in_map_iff. exists e. tauto.
Qed.

Lemma registry_ok_set_all l :
  forall m, registry_ok m -> registry_ok (set_all l m).
Proof.
  induction l as [|n l IH]; intros m H; simpl; [exact H|].
  apply IH. now apply registry_ok_set.
Qed.

Lemma world_ok_construct t file : world_ok (construct t file).
Proof.
  destruct file as [file|].
  - rewrite construct_run. split; simpl.
    + apply registry_ok_set_all. split; constructor.
    + apply advance_all_nonneg. lia.
  - split; simpl; [split; constructor | lia].
Qed.

Lemma world_ok_Notify env appName replacesId appIcon summary body acts hints w :
  world_ok w ->
  world_ok (snd (Notify env appName replacesId appIcon summary body acts
                   hints w)).
Proof.
  intros [Hr Hc]. rewrite Notify_run. split; simpl.
  - apply registry_ok_set; [reflexivity | exact Hr].
  - unfold Notify_idCount.
    destruct (replacesId =? 0); [now apply js_add1_nonneg | exact Hc].
Qed.

Lemma world_ok_Dismiss id w :
  world_ok w -> world_ok (snd (DismissNotification id w)).
Proof.
  intros [[Hnd Hall] Hc].
  destruct (JsMap.get id (_notifications (this w))) as [n|] eqn:E.
  - rewrite (DismissNotification_live id n w E). split; simpl; [|exact Hc].
    apply registry_ok_set; [|split; assumption]. simpl.
    clear Hnd. induction Hall as [|[k v] r Hk Hall IH]; simpl in E.
    + discriminate.
    + simpl in Hk. destruct (k =? id) eqn:Ek.
      * apply Z.eqb_eq in Ek. congruence.
      * now apply IH.
  - rewrite DismissNotification_absent; [split; [split|]; assumption|].
    unfold JsMap.has. now rewrite E.
Qed.

Lemma world_ok_Close id w :
  world_ok w -> world_ok (snd (CloseNotification id w)).
Proof.
  intros [Hr Hc].
  destruct (JsMap.has id (_notifications (this w))) eqn:E.
  - rewrite CloseNotification_live by exact E. split; simpl; [|exact Hc].
    now apply registry_ok_delete.
  - rewrite CloseNotification_absent by exact E. now split.
Qed.

Lemma world_ok_Invoke id actionId w :
  world_ok w -> world_ok (snd (InvokeAction id actionId w)).
Proof.
  intros [Hr Hc].
  destruct (JsMap.has id (_notifications (this w))) eqn:E.
  - rewrite InvokeAction_live by exact E. split; simpl; [|exact Hc].
    now apply registry_ok_delete.
  - rewrite InvokeAction_absent by exact E. now split.
Qed.

Lemma world_ok_forEach_Close ids :
  forall w, world_ok w -> world_ok (snd (forEach CloseNotification ids w)).
Proof.
  induction ids as [|id ids IH]; intros w H; [exact H|].
  cbn [forEach]. unfold bind.
  pose proof (world_ok_Close id w H) as H'.
  destruct (CloseNotification id w) as [[] w1]. simpl in H'. now apply IH.
Qed.

(** X18: in every world a service can be in, whatever file it was started
    on and whatever requests it has served, the keys of the registry are
    the ids of their records, no key occurs twice, and the counter is not
    negative. *)
Lemma reachable_world_ok w : reachable w -> world_ok w.
Proof.
  induction 1 as [t file | r w Hr IH].
  - apply world_ok_construct.
  - destruct r as [c|id|id|id actionId|value|]; simpl.
    + rewrite call_run. now apply world_ok_Notify.
    + now apply world_ok_Dismiss.
    + now apply world_ok_Close.
    + now apply world_ok_Invoke.
    + exact IH.
    + unfold Clear, bind, get_this. now apply world_ok_forEach_Close.
Qed.

Lemma reachable_world_ok_witness :
  reachable (serve (ReqInvoke 1 "x")
               (serve (ReqNotify supplied_call) restarted_5_6)) /\
  world_ok (serve (ReqInvoke 1 "x")
              (serve (ReqNotify supplied_call) restarted_5_6)).
Proof.
  assert (H : reachable (serve (ReqInvoke 1 "x")
                           (serve (ReqNotify supplied_call) restarted_5_6)))
    by (do 2 apply reachable_serve; apply reachable_construct).
  split; [exact H | exact (reachable_world_ok _ H)].
Defined.

(** ** The counter under requests *)

Lemma idCount_Dismiss id w :
  _idCount (this (snd (DismissNotification id w))) = _idCount (this w).
Proof.
  destruct (JsMap.get id (_notifications (this w))) as [n|] eqn:E.
  - now rewrite (DismissNotification_live id n w E).
  - rewrite DismissNotification_absent; [reflexivity|].
    unfold JsMap.has. now rewrite E.
Qed.

Lemma idCount_Close id w :
  _idCount (this (snd (CloseNotification id w))) = _idCount (this w).
Proof.
  destruct (JsMap.has id (_notifications (this w))) eqn:E.
  - now rewrite CloseNotification_live by exact E.
  - now rewrite CloseNotification_absent by exact E.
Qed.

Lemma idCount_Invoke id actionId w :
  _idCount (this (snd (InvokeAction id actionId w))) = _idCount (this w).
Proof.
  destruct (JsMap.has id (_notifications (this w))) eqn:E.
  - now rewrite InvokeAction_live by exact E.
  - now rewrite InvokeAction_absent by exact E.
Qed.

Lemma idCount_forEach_Close ids :
  forall w,
    _idCount (this (snd (forEach CloseNotification ids w))) =
    _idCount (this w).
Proof.
  induction ids as [|id ids IH]; intros w; [reflexivity|].
  cbn [forEach]. unfold bind.
  pose proof (idCount_Close id w) as H.
  destruct (CloseNotification id w) as [[] w1]. simpl in H.
  now rewrite IH.
Qed.

(** Below 2^53 a request leaves the counter or adds one to it. *)
Lemma serve_idCount_step r w :
  - two_53 <= _idCount (this w) < two_53 ->
  _idCount (this w) <= _idCount (this (serve r w)) <= _idCount (this w) + 1.
Proof.
  intros Hb. destruct r as [c|id|id|id actionId|value|]; cbn [serve].
  - rewrite call_run, Notify_run. simpl. unfold Notify_idCount.
    destruct (c_replacesId c =? 0); [|lia].
    rewrite js_add1_exact by lia. lia.
  - rewrite idCount_Dismiss. lia.
  - rewrite idCount_Close. lia.
  - rewrite idCount_Invoke. lia.
  - unfold set_dnd. run_method. lia.
  - unfold Clear, bind, get_this. rewrite idCount_forEach_Close. lia.
Qed.

(** X19: as long as the counter stays below 2^53, whatever else is served
    in between, be it dismissals by expired timers, closes, invoked actions
    or a clear, the ids returned to [Notify] calls that pass 0 grow
    strictly, and none is below the counter the run started with. *)
Lemma served_ids_increase rs :
  forall w,
    Forall allocating rs ->
    - two_53 <= _idCount (this w) ->
    _idCount (this w) + Z.of_nat (List.length rs) <= two_53 ->
    StronglySorted Z.lt (fst (serve_all rs w)) /\
    Forall (fun id => _idCount (this w) <= id) (fst (serve_all rs w)).
Proof.
  induction rs as [|r rs IH]; intros w Hall Hlo Hhi.
  - simpl. split; constructor.
  - inversion Hall as [|r' rs' Hr Hrs]; subst.
    cbn [List.length] in Hhi. rewrite Nat2Z.inj_succ in Hhi.
    assert (Hb : - two_53 <= _idCount (this w) < two_53) by lia.
    pose proof (serve_idCount_step r w Hb) as Hstep.
    cbn [serve_all].
    destruct (IH (serve r w) Hrs) as [Hs Hge]; [lia | lia |].
    destruct (serve_all rs (serve r w)) as [ids w'] eqn:E.
    cbn [fst] in *.
    assert (Hge' : Forall (fun id => _idCount (this w) <= id) ids).
    { eapply Forall_impl; [|exact Hge]. simpl. intros; lia. }
    destruct r as [c|id|id|id actionId|value|]; cbn [returned app];
      try (split; assumption).
    simpl in Hr. destruct (call_allocates c w Hr) as [Hid Hcount].
    cbn [serve] in Hge. rewrite Hcount, js_add1_exact in Hge by lia.
    rewrite Hid. split.
    + constructor; [exact Hs|].
      eapply Forall_impl; [|exact Hge]. simpl. intros; lia.
    + constructor; [lia | exact Hge'].
Qed.

Lemma served_ids_increase_witness :
  Forall allocating
    [ReqNotify (allocating_call "A"); ReqDismiss 0;
     ReqNotify (allocating_call "B"); ReqClose 0; ReqClear;
     ReqNotify (allocating_call "C")] /\
  fst (serve_all
         [ReqNotify (allocating_call "A"); ReqDismiss 0;
          ReqNotify (allocating_call "B"); ReqClose 0; ReqClear;
          ReqNotify (allocating_call "C")] fresh) = [0; 1; 2] /\
  StronglySorted Z.lt
    (fst (serve_all
            [ReqNotify (allocating_call "A"); ReqDismiss 0;
             ReqNotify (allocating_call "B"); ReqClose 0; ReqClear;
             ReqNotify (allocating_call "C")] fresh)).
Proof.
  assert (H : Forall allocating
                [ReqNotify (allocating_call "A"); ReqDismiss 0;
                 ReqNotify (allocating_call "B"); ReqClose 0; ReqClear;
                 ReqNotify (allocating_call "C")])
    by (repeat (apply Forall_cons || apply Forall_nil); exact I || reflexivity).
  assert (Hlo : - two_53 <= _idCount (this fresh))
    by (vm_compute; discriminate).
  assert (Hhi : _idCount (this fresh)
                + Z.of_nat
                    (List.length
                       [ReqNotify (allocating_call "A"); ReqDismiss 0;
                        ReqNotify (allocating_call "B"); ReqClose 0; ReqClear;
                        ReqNotify (allocating_call "C")]) <= two_53)
    by (vm_compute; discriminate).
  split; [exact H|]. split; [vm_compute; reflexivity|].
  exact (proj1 (served_ids_increase _ fresh H Hlo Hhi)).
Defined.

(** ** Actions parsing *)

(** C4, as the claim states it, fails: the id left over at the end of an
    odd-length list is not dropped.  The loop reads [acts[i + 1]] past the
    end, gets [undefined], which is not the empty string, and pushes an
    action with that id and no label. *)
Lemma trailing_id_is_kept :
  parse_actions ["a1"; "Open"; "a2"] =
  [ {| Action.id := "a1"; Action.label := Some "Open" |};
    {| Action.id := "a2"; Action.label := None |} ] /\
  parse_actions ["a1"; "Open"; "a2"] <> parse_actions ["a1"; "Open"].
Proof. split; [reflexivity | discriminate]. Qed.

(** C4 (amended): the actions that [Notify] stores pair consecutive
    elements as (id, label) and leave out a pair whose label is the empty
    string; the id left over at the end of an odd-length list is kept as a
    last action without a label; and [["a1"; "Open"; "a2"; ""]] gives exactly
    the one action with id "a1" and label "Open". *)
Theorem parse_actions_pairing :
  parse_actions [] = [] /\
  (forall i rest, parse_actions (i :: "" :: rest) = parse_actions rest) /\
  (forall i c l rest,
      parse_actions (i :: String c l :: rest) =
      {| Action.id := i; Action.label := Some (String c l) |}
        :: parse_actions rest) /\
  (forall i,
      parse_actions [i] = [ {| Action.id := i; Action.label := None |} ]) /\
  parse_actions ["a1"; "Open"; "a2"; ""] =
  [ {| Action.id := "a1"; Action.label := Some "Open" |} ].
Proof.
  repeat split; intros; rewrite ?parse_actions_pair_actions; reflexivity.
Qed.

(** ** Urgency decoding *)

Lemma Notify_stores env appName replacesId appIcon summary body acts hints w :
  JsMap.get
    (fst (Notify env appName replacesId appIcon summary body acts hints w))
    (_notifications
       (this (snd (Notify env appName replacesId appIcon summary body acts
                     hints w)))) =
  Some (Notify_record env (Notify_id replacesId w) appName appIcon summary
          body acts hints (_dnd (this w))).
Proof. rewrite Notify_run. simpl. apply get_set_same. Qed.

(** C2, as the claim states it, fails twice: the record stored for the hint
    byte 3 has no urgency at all, not "normal", and the record stored for
    the hint byte 0 has the urgency "normal", not "low". *)
Lemma urgency_3_undefined_0_normal :
  option_map Notification.urgency
    (JsMap.get 0
       (_notifications
          (this (snd (Notify env0 "App" 0 "" "Hi" "" [] (urgency_hint 3)
                        fresh))))) = Some None /\
  option_map Notification.urgency
    (JsMap.get 0
       (_notifications
          (this (snd (Notify env0 "App" 0 "" "Hi" "" [] (urgency_hint 0)
                        fresh))))) = Some (Some "normal").
Proof. split; reflexivity. Qed.

(** C2 (amended): in the record that [Notify] stores, an absent urgency
    hint or the byte 1 gives "normal", the byte 2 gives "critical", and a
    byte of 3 or more gives no urgency string at all ([undefined]). *)
Theorem Notify_urgency_decoding
  env appName replacesId appIcon summary body acts hints w :
  exists n,
    JsMap.get
      (fst (Notify env appName replacesId appIcon summary body acts hints w))
      (_notifications
         (this (snd (Notify env appName replacesId appIcon summary body acts
                       hints w)))) = Some n /\
    (hint_urgency hints = None \/ hint_urgency hints = Some 1%N ->
     Notification.urgency n = Some "normal") /\
    (hint_urgency hints = Some 2%N ->
     Notification.urgency n = Some "critical") /\
    (forall b, hint_urgency hints = Some b -> (3 <= b)%N ->
               Notification.urgency n = None).
Proof.
  eexists. split; [apply Notify_stores|].
  unfold Notify_record, decode_urgency. simpl.
  repeat split.
  - intros [H|H]; rewrite H; reflexivity.
  - intros H; rewrite H; reflexivity.
  - intros b H Hb. rewrite H.
    destruct b as [|p]; [lia|]. simpl.
    apply nth_error_None. unfold _URGENCY. simpl. lia.
Qed.

Lemma Notify_urgency_decoding_witness :
  (exists n,
      JsMap.get
        (fst (Notify env0 "App" 0 "" "Hi" "" [] no_hints fresh))
        (_notifications
           (this (snd (Notify env0 "App" 0 "" "Hi" "" [] no_hints fresh))))
      = Some n /\
      Notification.urgency n = Some "normal") /\
  (exists n,
      JsMap.get
        (fst (Notify env0 "App" 0 "" "Hi" "" [] (urgency_hint 2) fresh))
        (_notifications
           (this (snd (Notify env0 "App" 0 "" "Hi" "" [] (urgency_hint 2)
                         fresh)))) = Some n /\
      Notification.urgency n = Some "critical") /\
  (exists n,
      JsMap.get
        (fst (Notify env0 "App" 0 "" "Hi" "" [] (urgency_hint 7) fresh))
        (_notifications
           (this (snd (Notify env0 "App" 0 "" "Hi" "" [] (urgency_hint 7)
                         fresh)))) = Some n /\
      Notification.urgency n = None).
Proof.
  split; [|split].
  - destruct (Notify_urgency_decoding env0 "App" 0 "" "Hi" "" []
                no_hints fresh) as [n [Hn [H1 _]]].
    exists n. split; [exact Hn|]. apply H1. left. reflexivity.
  - destruct (Notify_urgency_decoding env0 "App" 0 "" "Hi" "" []
                (urgency_hint 2) fresh) as [n [Hn [_ [H2 _]]]].
    exists n. split; [exact Hn|]. apply H2. reflexivity.
  - destruct (Notify_urgency_decoding env0 "App" 0 "" "Hi" "" []
                (urgency_hint 7) fresh) as [n [Hn [_ [_ H3]]]].
    exists n. split; [exact Hn|].
    apply (H3 7%N); [reflexivity | lia].
Defined.

(** ** Replacement and allocation of ids *)

(** C5: a [Notify] call whose [replacesId] is not 0 and is the id of a live
    record returns that id, puts in its place a record made of the call's
    own arguments only, leaves the allocation counter as it was and leaves
    every other entry, and the order of the entries, as they were. *)
Theorem Notify_replaces_in_place
  env appName replacesId appIcon summary body acts hints w :
  replacesId <> 0 ->
  JsMap.has replacesId (_notifications (this w)) = true ->
  let r := Notify env appName replacesId appIcon summary body acts hints w in
  fst r = replacesId /\
  JsMap.get replacesId (_notifications (this (snd r))) =
    Some (Notify_record env replacesId appName appIcon summary body acts
            hints (_dnd (this w))) /\
  _idCount (this (snd r)) = _idCount (this w) /\
  (forall k, k <> replacesId ->
     JsMap.get k (_notifications (this (snd r))) =
     JsMap.get k (_notifications (this w))) /\
  JsMap.keys (_notifications (this (snd r))) =
    JsMap.keys (_notifications (this w)).
Proof.
  intros Hnz Hlive r. subst r. rewrite Notify_run. simpl.
  unfold Notify_id, Notify_idCount.
  apply Z.eqb_neq in Hnz. rewrite Hnz.
  repeat split.
  - apply get_set_same.
  - intros k Hk. now apply get_set_other.
  - now apply keys_set_present.
Qed.

Lemma Notify_replaces_in_place_witness :
  1 <> 0 /\
  JsMap.has 1 (_notifications (this after_supplied)) = true /\
  fst (Notify env0 "Second" 1 "" "Bye" "" ["x"; "Y"] no_hints after_supplied)
  = 1 /\
  _idCount
    (this (snd (Notify env0 "Second" 1 "" "Bye" "" ["x"; "Y"] no_hints
                  after_supplied))) = 0.
Proof.
  assert (H1 : 1 <> 0) by lia.
  assert (H2 : JsMap.has 1 (_notifications (this after_supplied)) = true)
    by reflexivity.
  destruct (Notify_replaces_in_place env0 "Second" 1 "" "Bye" ""
              ["x"; "Y"] no_hints after_supplied H1 H2) as [A [_ [C _]]].
  split; [exact H1|]. split; [exact H2|]. split; [exact A | exact C].
Defined.

Lemma run_calls_cons c cs w :
  run_calls (c :: cs) w =
  (fst (call c w) :: fst (run_calls cs (snd (call c w))),
   snd (run_calls cs (snd (call c w)))).
Proof.
  cbn [run_calls]. unfold bind, ret.
  destruct (call c w) as [id w1]. simpl.
  destruct (run_calls cs w1) as [ids w2]. reflexivity.
Qed.

(** A run of allocating calls that keeps the counter below 2^53 returns ids
    that start at the counter and grow. *)
Lemma run_calls_allocating cs :
  forall w,
    Forall (fun c => c_replacesId c = 0) cs ->
    - two_53 <= _idCount (this w) ->
    _idCount (this w) + Z.of_nat (List.length cs) <= two_53 ->
    StronglySorted Z.lt (fst (run_calls cs w)) /\
    Forall (fun id => _idCount (this w) <= id) (fst (run_calls cs w)).
Proof.
  induction cs as [|c cs IH]; intros w Hall Hlo Hhi.
  - simpl. split; constructor.
  - inversion Hall as [|c' cs' Hc Hcs]; subst.
    cbn [List.length] in Hhi. rewrite Nat2Z.inj_succ in Hhi.
    rewrite run_calls_cons. simpl fst.
    destruct (call_allocates c w Hc) as [Hid Hcount].
    rewrite js_add1_exact in Hcount by lia.
    destruct (IH (snd (call c w)) Hcs) as [Hs Hge];
      [rewrite Hcount; lia | rewrite Hcount; lia |].
    rewrite Hcount in Hge. rewrite Hid. split.
    + constructor; [exact Hs|].
      eapply Forall_impl; [|exact Hge]. simpl. intros; lia.
    + constructor; [lia|].
      eapply Forall_impl; [|exact Hge]. simpl. intros; lia.
Qed.

Lemma strictly_sorted_NoDup (l : list Z) : StronglySorted Z.lt l -> NoDup l.
Proof.
  induction 1 as [|a l Hs IH Hall]; constructor; [|exact IH].
  intros Hin. rewrite Forall_forall in Hall. specialize (Hall a Hin). lia.
Qed.

(** C6, as the claim states it, fails: the counter is a double, and from
    2^53 on adding one no longer moves it.  A service started on a cache
    file whose record has the id 2^53 - 1 has the counter 2^53, and three
    [Notify] calls that pass 0 are all returned 2^53. *)
Lemma ids_stall_at_two_53 :
  _idCount (this restarted_at_limit) = two_53 /\
  fst (run_calls [allocating_call "A"; allocating_call "B";
                  allocating_call "C"] restarted_at_limit) =
  [two_53; two_53; two_53] /\
  ~ StronglySorted Z.lt
      (fst (run_calls [allocating_call "A"; allocating_call "B";
                       allocating_call "C"] restarted_at_limit)).
Proof.
  assert (H : fst (run_calls [allocating_call "A"; allocating_call "B";
                              allocating_call "C"] restarted_at_limit) =
              [two_53; two_53; two_53]) by (vm_compute; reflexivity).
  split; [vm_compute; reflexivity|]. split; [exact H|].
  rewrite H. intros Hs. inversion Hs as [|? ? _ Hall]; subst.
  inversion Hall as [|? ? Hlt _]; subst. lia.
Qed.

(** C6 (amended): in any run of [Notify] calls that all pass
    [replacesId = 0], from any state of the service, as long as the counter
    stays within 2^53 (it starts at -2^53 or more and, with one added for
    each call, ends at 2^53 or less), the ids returned are strictly
    increasing, and so no id is returned twice. *)
Theorem allocated_ids_strictly_increase cs w :
  Forall (fun c => c_replacesId c = 0) cs ->
  - two_53 <= _idCount (this w) ->
  _idCount (this w) + Z.of_nat (List.length cs) <= two_53 ->
  StronglySorted Z.lt (fst (run_calls cs w)) /\
  NoDup (fst (run_calls cs w)).
Proof.
  intros Hall Hlo Hhi.
  destruct (run_calls_allocating cs w Hall Hlo Hhi) as [Hs _].
  split; [exact Hs | now apply strictly_sorted_NoDup].
Qed.

Lemma allocated_ids_strictly_increase_witness :
  Forall (fun c => c_replacesId c = 0)
    [allocating_call "A"; allocating_call "B"; allocating_call "C"] /\
  - two_53 <= _idCount (this after_first) /\
  _idCount (this after_first)
  + Z.of_nat (List.length [allocating_call "A"; allocating_call "B";
                           allocating_call "C"]) <= two_53 /\
  fst (run_calls [allocating_call "A"; allocating_call "B";
                  allocating_call "C"] after_first) = [1; 2; 3] /\
  StronglySorted Z.lt
    (fst (run_calls [allocating_call "A"; allocating_call "B";
                     allocating_call "C"] after_first)) /\
  NoDup
    (fst (run_calls [allocating_call "A"; allocating_call "B";
                     allocating_call "C"] after_first)).
Proof.
  assert (H : Forall (fun c => c_replacesId c = 0)
                [allocating_call "A"; allocating_call "B";
                 allocating_call "C"])
    by (repeat constructor).
  assert (Hlo : - two_53 <= _idCount (this after_first))
    by (vm_compute; discriminate).
  assert (Hhi : _idCount (this after_first)
                + Z.of_nat (List.length [allocating_call "A";
                                         allocating_call "B";
                                         allocating_call "C"]) <= two_53)
    by (vm_compute; discriminate).
  split; [exact H|]. split; [exact Hlo|]. split; [exact Hhi|].
  split; [vm_compute; reflexivity|].
  exact (allocated_ids_strictly_increase _ after_first H Hlo Hhi).
Defined.

(** ** Dismiss, close and invoke *)

Lemma CloseNotification_removes id w :
  JsMap.has id (_notifications (this (snd (CloseNotification id w)))) = false.
Proof.
  destruct (JsMap.has id (_notifications (this w))) eqn:H.
  - rewrite CloseNotification_live by exact H. simpl. apply has_delete_same.
  - rewrite CloseNotification_absent by exact H. exact H.
Qed.

(** C7: for a live id, [InvokeAction] first emits the signal ActionInvoked
    with the id and the action id, then does what [CloseNotification] does,
    then writes the cache once more; the service and the cache file end as
    [CloseNotification] alone leaves them, and the record is gone. *)
Theorem InvokeAction_signals_then_closes id actionId w :
  JsMap.has id (_notifications (this w)) = true ->
  let wi := snd (InvokeAction id actionId w) in
  let wc := snd (CloseNotification id w) in
  trace wc = trace w ++ close_effects id (_notifications (this w)) /\
  trace wi =
    trace w
    ++ EmitSignal "ActionInvoked" (Variant_us id actionId)
       :: close_effects id (_notifications (this w))
    ++ [EnsureDirectory; WriteFile (cache_doc (_notifications (this wc)))] /\
  this wi = this wc /\
  cache_file wi = cache_file wc /\
  JsMap.has id (_notifications (this wi)) = false.
Proof.
  intros H wi wc. subst wi wc.
  rewrite InvokeAction_live, CloseNotification_live by exact H. simpl.
  unfold close_effects. simpl.
  repeat split. apply has_delete_same.
Qed.

Lemma InvokeAction_signals_then_closes_witness :
  JsMap.has 0 (_notifications (this after_first)) = true /\
  this (snd (InvokeAction 0 "a1" after_first)) =
  this (snd (CloseNotification 0 after_first)) /\
  JsMap.has 0 (_notifications (this (snd (InvokeAction 0 "a1" after_first))))
  = false.
Proof.
  assert (H : JsMap.has 0 (_notifications (this after_first)) = true)
    by reflexivity.
  destruct (InvokeAction_signals_then_closes 0 "a1" after_first H)
    as [_ [_ [A [_ B]]]].
  split; [exact H|]. split; [exact A | exact B].
Defined.

(** C8: for an id that is not in the registry, be it never used or just
    removed by [CloseNotification], each of [DismissNotification],
    [CloseNotification] and [InvokeAction] returns with the world as it
    was: the same service, the same cache file and nothing added to the
    trace of signals, events and writes. *)
Theorem unknown_id_is_ignored id actionId w :
  JsMap.has id (_notifications (this w)) = false \/
  (exists w0, w = snd (CloseNotification id w0)) ->
  DismissNotification id w = (tt, w) /\
  CloseNotification id w = (tt, w) /\
  InvokeAction id actionId w = (tt, w).
Proof.
  intros H.
  assert (Habs : JsMap.has id (_notifications (this w)) = false).
  { destruct H as [H|[w0 ->]]; [exact H | apply CloseNotification_removes]. }
  split; [|split].
  - now apply DismissNotification_absent.
  - now apply CloseNotification_absent.
  - now apply InvokeAction_absent.
Qed.

Lemma unknown_id_is_ignored_witness :
  (exists w0, snd (CloseNotification 0 after_first)
              = snd (CloseNotification 0 w0)) /\
  DismissNotification 0 (snd (CloseNotification 0 after_first)) =
    (tt, snd (CloseNotification 0 after_first)) /\
  CloseNotification 0 (snd (CloseNotification 0 after_first)) =
    (tt, snd (CloseNotification 0 after_first)) /\
  InvokeAction 0 "a1" (snd (CloseNotification 0 after_first)) =
    (tt, snd (CloseNotification 0 after_first)).
Proof.
  assert (H : exists w0, snd (CloseNotification 0 after_first)
                         = snd (CloseNotification 0 w0))
    by (exists after_first; reflexivity).
  split; [exact H|].
  apply (unknown_id_is_ignored 0 "a1" (snd (CloseNotification 0 after_first))).
  right. exact H.
Defined.

(** C9: for a live id, [DismissNotification] leaves the record in the
    registry with its popup flag false and its other properties as they
    were, leaves every other entry, the order of the entries, the counter
    and the do-not-disturb flag as they were, does not touch the cache
    file, and adds to the trace the events dismissed and changed only. *)
Theorem DismissNotification_keeps_record id n w :
  JsMap.get id (_notifications (this w)) = Some n ->
  let w' := snd (DismissNotification id w) in
  (exists n',
      JsMap.get id (_notifications (this w')) = Some n' /\
      Notification.popup n' = false /\
      same_but_popup n n') /\
  (forall k, k <> id ->
     JsMap.get k (_notifications (this w')) =
     JsMap.get k (_notifications (this w))) /\
  JsMap.keys (_notifications (this w')) = JsMap.keys (_notifications (this w))
  /\
  _idCount (this w') = _idCount (this w) /\
  _dnd (this w') = _dnd (this w) /\
  cache_file w' = cache_file w /\
  trace w' = trace w ++ [Emit "dismissed" (Some id); Emit "changed" None].
Proof.
  intros H w'. subst w'. rewrite (DismissNotification_live id n w H). simpl.
  split; [|split; [|split]].
  - exists (Notification.set_popup false n).
    split; [apply get_set_same|].
    split; [reflexivity|]. unfold same_but_popup. simpl. repeat split.
  - intros k Hk. now apply get_set_other.
  - apply keys_set_present. unfold JsMap.has. now rewrite H.
  - repeat split.
Qed.

Lemma DismissNotification_keeps_record_witness :
  JsMap.get 0 (_notifications (this after_first)) =
    Some (Notify_record env0 0 "App" "icon.png" "Hi" "body" ["a1"; "Open"]
            no_hints false) /\
  (exists n',
      JsMap.get 0
        (_notifications (this (snd (DismissNotification 0 after_first))))
      = Some n' /\
      Notification.popup n' = false /\
      same_but_popup
        (Notify_record env0 0 "App" "icon.png" "Hi" "body" ["a1"; "Open"]
           no_hints false) n') /\
  cache_file (snd (DismissNotification 0 after_first)) =
  cache_file after_first.
Proof.
  assert (H : JsMap.get 0 (_notifications (this after_first)) =
              Some (Notify_record env0 0 "App" "icon.png" "Hi" "body"
                      ["a1"; "Open"] no_hints false))
    by reflexivity.
  destruct (DismissNotification_keeps_record 0 _ after_first H)
    as [A [_ [_ [_ [_ [B _]]]]]].
  split; [exact H|]. split; [exact A | exact B].
Defined.

(** ** Ids supplied by the caller *)

(** C10: a [Notify] call whose [replacesId] is not 0 and is not the id of a
    live record stores its record under that id, as a new last entry, and
    does not move the counter.  So there is a run, first a call that
    supplies the id 1, then a call and a last call that both pass 0, in
    which the last call is given the id 1 by the counter and puts its
    record in the place of the first call's, which was still live. *)
Theorem supplied_id_is_allocated_again :
  (forall env appName replacesId appIcon summary body acts hints w,
      replacesId <> 0 ->
      JsMap.has replacesId (_notifications (this w)) = false ->
      let r :=
        Notify env appName replacesId appIcon summary body acts hints w in
      fst r = replacesId /\
      _notifications (this (snd r)) =
        _notifications (this w)
        ++ [(replacesId,
             Notify_record env replacesId appName appIcon summary body acts
               hints (_dnd (this w)))] /\
      JsMap.get replacesId (_notifications (this (snd r))) =
        Some (Notify_record env replacesId appName appIcon summary body acts
                hints (_dnd (this w))) /\
      _idCount (this (snd r)) = _idCount (this w)) /\
  (exists (first : NotifyCall) (between : list NotifyCall)
          (last : NotifyCall) (kept lost : Notification.t),
      c_replacesId first <> 0 /\
      Forall (fun c => c_replacesId c = 0) between /\
      c_replacesId last = 0 /\
      let w1 := snd (call first fresh) in
      let w2 := snd (run_calls between w1) in
      let r := call last w2 in
      fst (call first fresh) = c_replacesId first /\
      JsMap.get (c_replacesId first) (_notifications (this w2)) = Some lost /\
      Notification.appName lost = c_appName first /\
      fst r = c_replacesId first /\
      JsMap.get (c_replacesId first) (_notifications (this (snd r)))
        = Some kept /\
      Notification.appName kept = c_appName last /\
      kept <> lost /\
      JsMap.keys (_notifications (this (snd r))) =
        JsMap.keys (_notifications (this w2))).
Proof.
  split.
  - intros env appName replacesId appIcon summary body acts hints w Hnz Habs r.
    subst r. rewrite Notify_run. simpl.
    unfold Notify_id, Notify_idCount.
    apply Z.eqb_neq in Hnz. rewrite Hnz.
    repeat split.
    + now apply set_absent.
    + apply get_set_same.
  - exists supplied_call, [allocating_call "Second"], (allocating_call "Third").
    exists (Notify_record env0 1 "Third" "" "new" "" [] no_hints false).
    exists (Notify_record env0 1 "First" "" "kept?" "" [] no_hints false).
    split; [discriminate|]. split; [repeat constructor|].
    split; [reflexivity|].
    cbv zeta. repeat split; try reflexivity. discriminate.
Qed.

Lemma supplied_id_is_allocated_again_witness :
  5 <> 0 /\
  JsMap.has 5 (_notifications (this after_first)) = false /\
  fst (Notify env0 "Caller" 5 "" "Hi" "" [] no_hints after_first) = 5 /\
  _idCount (this (snd (Notify env0 "Caller" 5 "" "Hi" "" [] no_hints
                         after_first))) = 1.
Proof.
  assert (H1 : 5 <> 0) by lia.
  assert (H2 : JsMap.has 5 (_notifications (this after_first)) = false)
    by reflexivity.
  destruct (proj1 supplied_id_is_allocated_again env0 "Caller" 5 "" "Hi" ""
              [] no_hints after_first H1 H2) as [A [_ [_ B]]].
  split; [exact H1|]. split; [exact H2|]. split; [exact A | exact B].
Defined.

(** ** The counter after a restart *)

(** C3 does not hold of the code.  A service that has stored its first
    notification under the id 0 and is started again on the cache file it
    wrote has the record 0 and the counter 0, since [_readFromFile] moves
    the counter only for an id greater than it; the next allocating call
    returns 0 and replaces the restored record.  In the same way the ids 5
    and 6 leave the counter at 6, and 6 is returned next. *)
Theorem restored_id_is_allocated_again :
  cache_file after_first <> None /\
  JsMap.keys (_notifications (this restarted)) = [0] /\
  _idCount (this restarted) = 0 /\
  fst (call (allocating_call "New") restarted) = 0 /\
  option_map Notification.appName
    (JsMap.get 0 (_notifications (this restarted))) = Some "App" /\
  option_map Notification.appName
    (JsMap.get 0
       (_notifications (this (snd (call (allocating_call "New") restarted)))))
    = Some "New" /\
  JsMap.keys (_notifications (this restarted_5_6)) = [5; 6] /\
  _idCount (this restarted_5_6) = 6 /\
  fst (call (allocating_call "New") restarted_5_6) = 6.
Proof. repeat split; try reflexivity. discriminate. Qed.

(** ** The cache file *)

Lemma not_in_keys_has_false (k : Z) (m : JsMap.t Notification.t) :
  ~ In k (JsMap.keys m) -> JsMap.has k m = false.
Proof.
  unfold JsMap.has, JsMap.keys.
  induction m as [|[k0 v0] r IH]; simpl; [reflexivity|].
  intros Hn. destruct (k0 =? k) eqn:E.
  - apply Z.eqb_eq in E. tauto.
  - apply IH. tauto.
Qed.

Lemma set_all_fresh l :
  forall m,
    NoDup (map Notification.id l) ->
    (forall n, In n l -> ~ In (Notification.id n) (JsMap.keys m)) ->
    set_all l m = m ++ map (fun n => (Notification.id n, n)) l.
Proof.
  induction l as [|n l IH]; intros m Hnd Hfresh; simpl.
  - now rewrite app_nil_r.
  - inversion Hnd as [|? ? Hn Hnd']; subst.
    rewrite set_absent
      by (apply not_in_keys_has_false, Hfresh; now left).
    rewrite IH.
    + now rewrite <- app_assoc.
    + exact Hnd'.
    + intros n' Hin. unfold JsMap.keys. rewrite map_app, in_app_iff. simpl.
      intros [H|[H|[]]].
      * apply (Hfresh n'); [now right | exact H].
      * apply Hn. rewrite H. now apply in_map.
Qed.

Lemma ids_cache_doc m :
  Forall (fun e => fst e = Notification.id (snd e)) m ->
  map Notification.id (cache_doc m) = JsMap.keys m.
Proof.
  unfold cache_doc, JsMap.values, JsMap.keys.
  induction 1 as [|[k v] r Hk Hall IH]; simpl; [reflexivity|].
  simpl in Hk. now rewrite IH, Hk.
Qed.

Lemma get_map_values (f : Notification.t -> Notification.t) k m :
  JsMap.get k (map (fun e => (fst e, f (snd e))) m) =
  option_map f (JsMap.get k m).
Proof.
  induction m as [|[k0 v0] r IH]; simpl; [reflexivity|].
  now destruct (k0 =? k).
Qed.

(** What does hold of the round trip: a registry in which every key is its
    record's id comes back with the same keys in the same order, and each
    record as [_cache] wrote it. *)
Lemma save_and_reload_registry w :
  registry_ok (_notifications (this w)) ->
  _notifications (this (save_and_reload w)) =
  map (fun e => (fst e, Notification.spread_action_popup (snd e)))
      (_notifications (this w)).
Proof.
  intros [Hnd Hall]. unfold save_and_reload.
  rewrite _cache_run. simpl. rewrite construct_run. simpl.
  rewrite set_all_fresh.
  - unfold JsMap.empty, cache_doc, JsMap.values. simpl. rewrite !map_map.
    apply map_ext_in. intros [k v] Hin.
    rewrite Forall_forall in Hall. specialize (Hall _ Hin). simpl in *.
    now rewrite Hall.
  - now rewrite ids_cache_doc.
  - intros n _ [].
Qed.

(** X20: when every key of the registry is its record's id and no key
    occurs twice, every record written by [_cache] and read by a new
    service comes back under its id with all its properties, [actions]
    among them, but for [popup], which is false, and [action], which is the
    empty list. *)
Lemma save_and_reload_record w id n :
  registry_ok (_notifications (this w)) ->
  JsMap.get id (_notifications (this w)) = Some n ->
  exists n',
    JsMap.get id (_notifications (this (save_and_reload w))) = Some n' /\
    Notification.popup n' = false /\
    Notification.action n' = Some [] /\
    Notification.id n' = Notification.id n /\
    Notification.appName n' = Notification.appName n /\
    Notification.appEntry n' = Notification.appEntry n /\
    Notification.appIcon n' = Notification.appIcon n /\
    Notification.summary n' = Notification.summary n /\
    Notification.body n' = Notification.body n /\
    Notification.actions n' = Notification.actions n /\
    Notification.urgency n' = Notification.urgency n /\
    Notification.time n' = Notification.time n /\
    Notification.image n' = Notification.image n.
Proof.
  intros Hok Hget. exists (Notification.spread_action_popup n).
  rewrite save_and_reload_registry by exact Hok.
  rewrite get_map_values, Hget. simpl. repeat split.
Qed.

Lemma save_and_reload_record_witness :
  registry_ok (_notifications (this after_first)) /\
  JsMap.get 0 (_notifications (this after_first)) =
    Some (Notify_record env0 0 "App" "icon.png" "Hi" "body" ["a1"; "Open"]
            no_hints false) /\
  exists n',
    JsMap.get 0 (_notifications (this (save_and_reload after_first)))
    = Some n' /\
    Notification.popup n' = false /\
    Notification.summary n' = "Hi"%string.
Proof.
  assert (H1 : registry_ok (_notifications (this after_first))).
  { vm_compute. split; repeat constructor. intros []. }
  assert (H2 : JsMap.get 0 (_notifications (this after_first)) =
               Some (Notify_record env0 0 "App" "icon.png" "Hi" "body"
                       ["a1"; "Open"] no_hints false)) by reflexivity.
  split; [exact H1|]. split; [exact H2|].
  destruct (save_and_reload_record after_first 0 _ H1 H2)
    as [n' [A [B [_ [_ [_ [_ [_ [C _]]]]]]]]].
  exists n'. split; [exact A|]. split; [exact B|]. exact C.
Defined.

(** C1 does not hold of the code.  The record stored by the first call has
    the action (a1, Open); after the registry is written to the cache and
    read into a new service, the record read back has the same [actions],
    not an empty list, next to a property [action] that holds the empty
    list.  The popup flag is false, as claimed. *)
Theorem reload_keeps_actions :
  exists n n',
    JsMap.get 0 (_notifications (this after_first)) = Some n /\
    JsMap.get 0 (_notifications (this (save_and_reload after_first)))
      = Some n' /\
    Notification.actions n =
      [ {| Action.id := "a1"; Action.label := Some "Open" |} ] /\
    Notification.actions n' =
      [ {| Action.id := "a1"; Action.label := Some "Open" |} ] /\
    Notification.actions n' <> [] /\
    Notification.action n' = Some [] /\
    Notification.popup n = true /\
    Notification.popup n' = false.
Proof.
  do 2 eexists. repeat split; try reflexivity. discriminate.
Qed.

(** ** Shared facts for the properties of whole runs *)

Lemma delete_absent (k : Z) (m : JsMap.t Notification.t) :
  JsMap.has k m = false -> JsMap.delete k m = m.
Proof.
  unfold JsMap.has, JsMap.delete.
  induction m as [|[k0 v0] r IH]; simpl; [reflexivity|].
  destruct (k0 =? k) eqn:E; [discriminate|]. simpl.
  intros H. now rewrite IH.
Qed.

Lemma in_keys_has (k : Z) (m : JsMap.t Notification.t) :
  In k (JsMap.keys m) -> JsMap.has k m = true.
Proof.
  intros Hin. destruct (JsMap.has k m) eqn:E; [reflexivity|].
  now apply has_false_not_in in E.
Qed.

Lemma has_delete_other (k k' : Z) (m : JsMap.t Notification.t) :
  k' <> k -> JsMap.has k' (JsMap.delete k m) = JsMap.has k' m.
Proof. intros H. unfold JsMap.has. now rewrite get_delete_other. Qed.

Lemma registry_Close id w :
  _notifications (this (snd (CloseNotification id w))) =
  JsMap.delete id (_notifications (this w)).
Proof.
  destruct (JsMap.has id (_notifications (this w))) eqn:E.
  - now rewrite CloseNotification_live by exact E.
  - rewrite CloseNotification_absent by exact E. simpl.
    now rewrite delete_absent.
Qed.

Lemma dnd_Close id w :
  _dnd (this (snd (CloseNotification id w))) = _dnd (this w).
Proof.
  destruct (JsMap.has id (_notifications (this w))) eqn:E.
  - now rewrite CloseNotification_live by exact E.
  - now rewrite CloseNotification_absent by exact E.
Qed.

Lemma in_sync_Close id w :
  in_sync w -> in_sync (snd (CloseNotification id w)).
Proof.
  intros H. destruct (JsMap.has id (_notifications (this w))) eqn:E.
  - rewrite CloseNotification_live by exact E. reflexivity.
  - now rewrite CloseNotification_absent by exact E.
Qed.

Lemma forEach_cons {A} (f : A -> M unit) a l w :
  forEach f (a :: l) w = forEach f l (snd (f a w)).
Proof.
  cbn [forEach]. unfold bind. now destruct (f a w) as [[] w1].
Qed.

Lemma registry_forEach_Close ids :
  forall w,
    _notifications (this (snd (forEach CloseNotification ids w))) =
    fold_left (fun m id => JsMap.delete id m) ids (_notifications (this w)).
Proof.
  induction ids as [|id ids IH]; intros w; [reflexivity|].
  rewrite forEach_cons, IH, registry_Close. reflexivity.
Qed.

Lemma dnd_forEach_Close ids :
  forall w,
    _dnd (this (snd (forEach CloseNotification ids w))) = _dnd (this w).
Proof.
  induction ids as [|id ids IH]; intros w; [reflexivity|].
  now rewrite forEach_cons, IH, dnd_Close.
Qed.

Lemma in_sync_forEach_Close ids :
  forall w, in_sync w -> in_sync (snd (forEach CloseNotification ids w)).
Proof.
  induction ids as [|id ids IH]; intros w H; [exact H|].
  rewrite forEach_cons. now apply IH, in_sync_Close.
Qed.

(** A run of closes either finds none of its ids and changes nothing, or
    ends with the cache file written for the registry it leaves. *)
Lemma forEach_Close_cases ids :
  forall w,
    snd (forEach CloseNotification ids w) = w \/
    in_sync (snd (forEach CloseNotification ids w)).
Proof.
  induction ids as [|id ids IH]; intros w; [now left|].
  rewrite forEach_cons.
  destruct (JsMap.has id (_notifications (this w))) eqn:E.
  - right. apply in_sync_forEach_Close.
    rewrite CloseNotification_live by exact E. reflexivity.
  - rewrite CloseNotification_absent by exact E. apply IH.
Qed.

Lemma delete_all_keys ids :
  forall m : JsMap.t Notification.t,
    (forall k, In k (JsMap.keys m) -> In k ids) ->
    fold_left (fun m id => JsMap.delete id m) ids m = [].
Proof.
  induction ids as [|id ids IH]; intros m Hsub; simpl.
  - destruct m as [|[k v] r]; [reflexivity|].
    destruct (Hsub k). now left.
  - apply IH. intros k Hk.
    destruct (Z.eq_dec k id) as [->|Hne].
    + apply in_keys_has in Hk. now rewrite has_delete_same in Hk.
    + assert (Hin : In k (JsMap.keys m)).
      { destruct (JsMap.has k m) eqn:E.
        - unfold JsMap.keys, JsMap.delete in *.
          apply in_map_iff in Hk. destruct Hk as [e [He Hin]].
          apply filter_In in Hin. apply in_map_iff. exists e. tauto.
        - apply in_keys_has in Hk.
          rewrite has_delete_other in Hk by exact Hne. congruence. }
      destruct (Hsub k Hin) as [H|H]; [congruence | exact H].
Qed.

Lemma bus_signals_app tr1 tr2 :
  bus_signals (tr1 ++ tr2) = bus_signals tr1 ++ bus_signals tr2.
Proof. apply filter_app. Qed.

Lemma bus_signals_forEach_Close ids :
  forall w,
    NoDup ids ->
    (forall id, In id ids -> JsMap.has id (_notifications (this w)) = true) ->
    bus_signals (trace (snd (forEach CloseNotification ids w))) =
    bus_signals (trace w)
    ++ map (fun id => EmitSignal "NotificationClosed" (Variant_uu id 3)) ids.
Proof.
  induction ids as [|id ids IH]; intros w Hnd Hlive.
  - simpl. now rewrite app_nil_r.
  - inversion Hnd as [|? ? Hn Hnd']; subst.
    rewrite forEach_cons, IH.
    + rewrite CloseNotification_live by (apply Hlive; now left).
      simpl. rewrite bus_signals_app. simpl. now rewrite <- app_assoc.
    + exact Hnd'.
    + intros k Hk. rewrite registry_Close, has_delete_other.
      * apply Hlive. now right.
      * intros ->. contradiction.
Qed.

(** ** Clear *)

(** X1: [Clear()] leaves the registry empty, whatever it held, and does not
    touch the counter or the do-not-disturb flag.  If the registry held
    something the cache file ends as the empty array; if it held nothing,
    nothing is written, signalled or emitted. *)
Theorem Clear_empties_registry w :
  let w' := snd (Clear w) in
  _notifications (this w') = [] /\
  _idCount (this w') = _idCount (this w) /\
  _dnd (this w') = _dnd (this w) /\
  match _notifications (this w) with
  | [] => w' = w
  | _ => cache_file w' = Some []
  end.
Proof.
  unfold Clear, bind, get_this. cbv zeta.
  assert (Hreg : _notifications
                   (this (snd (forEach CloseNotification
                                 (JsMap.keys (_notifications (this w))) w)))
                 = []).
  { rewrite registry_forEach_Close. apply delete_all_keys. auto. }
  split; [exact Hreg|].
  split; [apply idCount_forEach_Close|].
  split; [apply dnd_forEach_Close|].
  destruct (_notifications (this w)) as [|e r] eqn:Em; [reflexivity|].
  destruct (forEach_Close_cases (JsMap.keys (e :: r)) w) as [H|H].
  - rewrite H in Hreg. congruence.
  - unfold in_sync in H. rewrite Hreg in H. exact H.
Qed.

(** X2: when no key occurs twice, [Clear()] emits on the bus one
    NotificationClosed signal for each id of the registry, in the order of
    the registry, each with the reason 3, and no other bus signal. *)
Theorem Clear_signals_each_id w :
  NoDup (JsMap.keys (_notifications (this w))) ->
  bus_signals (trace (snd (Clear w))) =
  bus_signals (trace w)
  ++ map (fun id => EmitSignal "NotificationClosed" (Variant_uu id 3))
       (JsMap.keys (_notifications (this w))).
Proof.
  intros Hnd. unfold Clear, bind, get_this.
  apply bus_signals_forEach_Close; [exact Hnd|].
  intros id Hin. now apply in_keys_has.
Qed.

Lemma Clear_signals_each_id_witness :
  NoDup (JsMap.keys
           (_notifications
              (this (snd (run_calls [allocating_call "A"; allocating_call "B";
                                     allocating_call "C"] fresh))))) /\
  bus_signals
    (trace (snd (Clear (snd (run_calls [allocating_call "A";
                                        allocating_call "B";
                                        allocating_call "C"] fresh))))) =
  [EmitSignal "NotificationClosed" (Variant_uu 0 3);
   EmitSignal "NotificationClosed" (Variant_uu 1 3);
   EmitSignal "NotificationClosed" (Variant_uu 2 3)].
Proof.
  assert (H : NoDup (JsMap.keys
                       (_notifications
                          (this (snd (run_calls [allocating_call "A";
                                                 allocating_call "B";
                                                 allocating_call "C"]
                                        fresh))))))
    by (vm_compute; repeat constructor; simpl; intuition discriminate).
  split; [exact H|].
  rewrite (Clear_signals_each_id _ H). vm_compute. reflexivity.
Defined.

(** ** The cache file follows the registry *)

Lemma cache_doc_set_popup id n b (m : JsMap.t Notification.t) :
  JsMap.get id m = Some n ->
  cache_doc (JsMap.set id (Notification.set_popup b n) m) = cache_doc m.
Proof.
  unfold cache_doc, JsMap.values.
  induction m as [|[k v] r IH]; simpl; [discriminate|].
  destruct (k =? id) eqn:E; simpl.
  - intros H. injection H as ->. reflexivity.
  - intros H. now rewrite IH.
Qed.

Lemma cache_doc_Dismiss id w :
  cache_doc (_notifications (this (snd (DismissNotification id w)))) =
  cache_doc (_notifications (this w)).
Proof.
  destruct (JsMap.get id (_notifications (this w))) as [n|] eqn:E.
  - rewrite (DismissNotification_live id n w E). simpl.
    now apply cache_doc_set_popup.
  - rewrite DismissNotification_absent; [reflexivity|].
    unfold JsMap.has. now rewrite E.
Qed.

Lemma cache_file_Dismiss id w :
  cache_file (snd (DismissNotification id w)) = cache_file w.
Proof.
  destruct (JsMap.get id (_notifications (this w))) as [n|] eqn:E.
  - now rewrite (DismissNotification_live id n w E).
  - rewrite DismissNotification_absent; [reflexivity|].
    unfold JsMap.has. now rewrite E.
Qed.

Lemma in_sync_serve r w : in_sync w -> in_sync (serve r w).
Proof.
  intros H. destruct r as [c|id|id|id actionId|value|]; simpl.
  - rewrite call_run, Notify_run. reflexivity.
  - unfold in_sync. now rewrite cache_file_Dismiss, cache_doc_Dismiss.
  - now apply in_sync_Close.
  - destruct (JsMap.has id (_notifications (this w))) eqn:E.
    + rewrite InvokeAction_live by exact E. reflexivity.
    + now rewrite InvokeAction_absent by exact E.
  - exact H.
  - unfold Clear, bind, get_this. now apply in_sync_forEach_Close.
Qed.

Lemma in_sync_serve_all rs :
  forall w, in_sync w -> in_sync (snd (serve_all rs w)).
Proof.
  induction rs as [|r rs IH]; intros w H; [exact H|].
  cbn [serve_all].
  pose proof (IH (serve r w) (in_sync_serve r w H)) as H'.
  now destruct (serve_all rs (serve r w)).
Qed.

(** X3: once a [Notify] has been served, from any world at all, the cache
    file is at every later moment what [_cache] would write for the
    registry of that moment, whatever requests follow: dismissals, which do
    not write, change nothing that is written. *)
Theorem cache_file_follows_registry c rs w :
  in_sync (snd (serve_all rs (snd (call c w)))).
Proof.
  apply in_sync_serve_all. rewrite call_run, Notify_run. reflexivity.
Qed.

(** ** What the service does to the outside *)

Lemma cache_doc_no_popup (m : JsMap.t Notification.t) :
  Forall (fun n => Notification.popup n = false) (cache_doc m).
Proof.
  unfold cache_doc. apply Forall_forall. intros n Hin.
  apply in_map_iff in Hin. destruct Hin as [n0 [<- _]]. reflexivity.
Qed.

Lemma effect_ok_changed : effect_ok (Emit "changed" None).
Proof. left. now split. Qed.

Lemma effect_ok_notified id : effect_ok (Emit "notified" (Some id)).
Proof. right. exists id. auto. Qed.

Lemma effect_ok_dismissed id : effect_ok (Emit "dismissed" (Some id)).
Proof. right. exists id. auto. Qed.

Lemma effect_ok_closed id : effect_ok (Emit "closed" (Some id)).
Proof. right. exists id. auto. Qed.

Lemma effect_ok_NotificationClosed id :
  effect_ok (EmitSignal "NotificationClosed" (Variant_uu id 3)).
Proof. left. now exists id. Qed.

Lemma effect_ok_ActionInvoked id actionId :
  effect_ok (EmitSignal "ActionInvoked" (Variant_us id actionId)).
Proof. right. now exists id, actionId. Qed.

Lemma effect_ok_WriteFile m : effect_ok (WriteFile (cache_doc m)).
Proof. apply cache_doc_no_popup. Qed.

Create HintDb effects.
#[local] Hint Resolve effect_ok_changed effect_ok_notified effect_ok_dismissed
  effect_ok_closed effect_ok_NotificationClosed effect_ok_ActionInvoked
  effect_ok_WriteFile : effects.
#[local] Hint Extern 1 (effect_ok (Timeout _ _)) => exact I : effects.
#[local] Hint Extern 1 (effect_ok EnsureDirectory) => exact I : effects.
#[local] Hint Extern 1 (effect_ok (SavePng _ _)) => exact I : effects.

Ltac effects_ok :=
  repeat (apply Forall_cons || apply Forall_nil); auto with effects.

Lemma effect_ok_Close id w :
  Forall effect_ok (trace w) ->
  Forall effect_ok (trace (snd (CloseNotification id w))).
Proof.
  intros H. destruct (JsMap.has id (_notifications (this w))) eqn:E.
  - rewrite CloseNotification_live by exact E. simpl.
    apply Forall_app. split; [exact H | effects_ok].
  - now rewrite CloseNotification_absent by exact E.
Qed.

Lemma effect_ok_forEach_Close ids :
  forall w,
    Forall effect_ok (trace w) ->
    Forall effect_ok (trace (snd (forEach CloseNotification ids w))).
Proof.
  induction ids as [|id ids IH]; intros w H; [exact H|].
  rewrite forEach_cons. now apply IH, effect_ok_Close.
Qed.

Lemma effect_ok_serve r w :
  Forall effect_ok (trace w) -> Forall effect_ok (trace (serve r w)).
Proof.
  intros H. destruct r as [c|id|id|id actionId|value|]; simpl.
  - rewrite call_run, Notify_run. simpl.
    apply Forall_app. split; [exact H|].
    apply Forall_app. split; [|effects_ok].
    unfold image_effects. destruct (image_data (c_hints c)); effects_ok.
  - destruct (JsMap.get id (_notifications (this w))) as [n|] eqn:E.
    + rewrite (DismissNotification_live id n w E). simpl.
      apply Forall_app. split; [exact H | effects_ok].
    + rewrite DismissNotification_absent; [exact H|].
      unfold JsMap.has. now rewrite E.
  - now apply effect_ok_Close.
  - destruct (JsMap.has id (_notifications (this w))) eqn:E.
    + rewrite InvokeAction_live by exact E. simpl.
      apply Forall_app. split; [exact H | effects_ok].
    + now rewrite InvokeAction_absent by exact E.
  - unfold set_dnd. run_method.
    apply Forall_app. split; [exact H | effects_ok].
  - unfold Clear, bind, get_this. now apply effect_ok_forEach_Close.
Qed.

(** X4: in every world a service can be in, everything it has done to the
    outside has one of these shapes.  A file it wrote holds only records
    whose popup flag is false; a bus signal is NotificationClosed with the
    reason 3 or ActionInvoked; a service event is changed without an id or
    one of notified, dismissed and closed with an id. *)
Theorem reachable_effects_ok w :
  reachable w -> Forall effect_ok (trace w).
Proof.
  induction 1 as [t file | r w Hr IH].
  - destruct file as [file|].
    + rewrite construct_run. simpl. effects_ok.
    + constructor.
  - now apply effect_ok_serve.
Qed.

Lemma reachable_effects_ok_witness :
  reachable (serve ReqClear (serve (ReqNotify supplied_call) fresh)) /\
  Forall effect_ok
    (trace (serve ReqClear (serve (ReqNotify supplied_call) fresh))).
Proof.
  assert (H : reachable (serve ReqClear (serve (ReqNotify supplied_call) fresh)))
    by (do 2 apply reachable_serve; apply reachable_construct).
  split; [exact H | exact (reachable_effects_ok _ H)].
Defined.

(** ** Starting again on the cache file *)

Lemma values_set (P : Notification.t -> Prop) k v m :
  P v -> Forall P (JsMap.values m) -> Forall P (JsMap.values (JsMap.set k v m)).
Proof.
  intros Hv. unfold JsMap.values.
  induction m as [|[k0 v0] r IH]; simpl; intros H.
  - now constructor.
  - inversion H as [|? ? H0 Hr]; subst.
    destruct (k0 =? k); simpl; constructor; auto.
Qed.

Lemma values_set_all (P : Notification.t -> Prop) l :
  forall m,
    Forall P l -> Forall P (JsMap.values m) ->
    Forall P (JsMap.values (set_all l m)).
Proof.
  induction l as [|n l IH]; intros m Hl Hm; simpl; [exact Hm|].
  inversion Hl as [|? ? Hn Hl']; subst.
  apply IH; [exact Hl'|]. now apply values_set.
Qed.

Lemma popups_fill_none (m : JsMap.t Notification.t) :
  forall acc,
    Forall (fun n => Notification.popup n = false) (JsMap.values m) ->
    fold_left
      (fun map e =>
         if Notification.popup (snd e) then JsMap.set (fst e) (snd e) map
         else map) m acc = acc.
Proof.
  unfold JsMap.values.
  induction m as [|[k v] r IH]; simpl; intros acc H; [reflexivity|].
  inversion H as [|? ? Hv Hr]; subst. simpl in Hv. rewrite Hv. now apply IH.
Qed.

Lemma popups_none (s : NotificationsService) :
  Forall (fun n => Notification.popup n = false)
         (JsMap.values (_notifications s)) ->
  popups s = [].
Proof. intros H. unfold popups. now rewrite popups_fill_none. Qed.

(** X5: a service started on a cache file whose records are no popups, as
    every file written by the service is, shows no popup at all, whatever
    the file holds otherwise. *)
Theorem no_popups_after_start t file :
  Forall (fun n => Notification.popup n = false) file ->
  popups (this (construct t (Some file))) = [].
Proof.
  intros H. apply popups_none. rewrite construct_run. simpl.
  apply values_set_all; [exact H | constructor].
Qed.

Lemma no_popups_after_start_witness :
  Forall (fun n => Notification.popup n = false)
    (cache_doc (_notifications (this after_first))) /\
  popups (this after_first) <> [] /\
  popups
    (this (construct None
             (Some (cache_doc (_notifications (this after_first)))))) = [].
Proof.
  assert (H : Forall (fun n => Notification.popup n = false)
                (cache_doc (_notifications (this after_first))))
    by (repeat constructor).
  split; [exact H|]. split; [discriminate|].
  exact (no_popups_after_start None _ H).
Defined.

Lemma construct_cache_doc t m :
  registry_ok m ->
  _notifications (this (construct t (Some (cache_doc m)))) =
  map (fun e => (fst e, Notification.spread_action_popup (snd e))) m.
Proof.
  intros [Hnd Hall]. rewrite construct_run. simpl.
  rewrite set_all_fresh.
  - unfold JsMap.empty, cache_doc, JsMap.values. simpl. rewrite !map_map.
    apply map_ext_in. intros [k v] Hin.
    rewrite Forall_forall in Hall. specialize (Hall _ Hin). simpl in *.
    now rewrite Hall.
  - now rewrite ids_cache_doc.
  - intros n _ [].
Qed.

(** X6: a notification that was closed does not come back.  When the keys
    of the registry are the ids of their records and [id] is live, a
    service started on the cache file as [CloseNotification(id)] leaves it
    has no record under [id] and has under every other key the record of
    before, as [_cache] writes it. *)
Theorem closed_is_not_restored t id w :
  registry_ok (_notifications (this w)) ->
  JsMap.has id (_notifications (this w)) = true ->
  let w' := restart t (snd (CloseNotification id w)) in
  JsMap.has id (_notifications (this w')) = false /\
  (forall k, k <> id ->
     JsMap.get k (_notifications (this w')) =
     option_map Notification.spread_action_popup
       (JsMap.get k (_notifications (this w)))).
Proof.
  intros Hok Hlive w'. subst w'. unfold restart.
  rewrite CloseNotification_live by exact Hlive. simpl.
  rewrite construct_cache_doc by (now apply registry_ok_delete).
  split.
  - unfold JsMap.has. now rewrite get_map_values, get_delete_same.
  - intros k Hk. now rewrite get_map_values, get_delete_other.
Qed.

Lemma closed_is_not_restored_witness :
  registry_ok (_notifications (this after_first)) /\
  JsMap.has 0 (_notifications (this after_first)) = true /\
  JsMap.has 0
    (_notifications
       (this (restart None (snd (CloseNotification 0 after_first))))) = false.
Proof.
  assert (H1 : registry_ok (_notifications (this after_first))).
  { vm_compute. split; repeat constructor. intros []. }
  assert (H2 : JsMap.has 0 (_notifications (this after_first)) = true)
    by reflexivity.
  split; [exact H1|]. split; [exact H2|].
  exact (proj1 (closed_is_not_restored None 0 after_first H1 H2)).
Defined.

Lemma advance_all_reached l :
  forall c,
    0 <= c -> Forall (fun n => Notification.id n < two_53) l ->
    advance_all l c = c \/
    exists n, In n l /\ advance_all l c = Notification.id n + 1.
Proof.
  induction l as [|n l IH]; intros c Hc Hl; simpl; [now left|].
  inversion Hl as [|? ? Hn Hl']; subst.
  destruct (Notification.id n >? c) eqn:E.
  - apply Z.gtb_lt in E. rewrite js_add1_exact by lia.
    destruct (IH (Notification.id n + 1)) as [H|[n' [Hin H]]];
      [lia | exact Hl' | |].
    + right. exists n. split; [now left | exact H].
    + right. exists n'. split; [now right | exact H].
  - destruct (IH c Hc Hl') as [H|[n' [Hin H]]]; [now left|].
    right. exists n'. split; [now right | exact H].
Qed.

(** X7: after a cache file whose ids are below 2^53 is read, the counter is
    at least 0 and at least every id read, and it is either still 0 or one
    more than the id of a record read: the counter never falls below an id
    read and never goes further than one past the ids read. *)
Theorem counter_after_load t file :
  Forall (fun n => Notification.id n < two_53) file ->
  let c := _idCount (this (construct t (Some file))) in
  0 <= c /\
  Forall (fun n => Notification.id n <= c) file /\
  (c = 0 \/ exists n, In n file /\ c = Notification.id n + 1).
Proof.
  intros H. cbv zeta. rewrite construct_run. simpl.
  split; [apply advance_all_nonneg; lia|].
  split; [apply advance_all_bounds | apply advance_all_reached];
    (lia || exact H).
Qed.

Lemma counter_after_load_witness :
  Forall (fun n => Notification.id n < two_53)
    [plain_record 5; plain_record 6; plain_record 8] /\
  _idCount
    (this (construct None
             (Some [plain_record 5; plain_record 6; plain_record 8]))) = 9 /\
  Forall
    (fun n =>
       Notification.id n <=
       _idCount
         (this (construct None
                  (Some [plain_record 5; plain_record 6; plain_record 8]))))
    [plain_record 5; plain_record 6; plain_record 8].
Proof.
  assert (H : Forall (fun n => Notification.id n < two_53)
                [plain_record 5; plain_record 6; plain_record 8])
    by (repeat constructor).
  split; [exact H|]. split; [vm_compute; reflexivity|].
  exact (proj1 (proj2 (counter_after_load None _ H))).
Defined.

Lemma get_set_all_other k l :
  forall m,
    (forall n, In n l -> Notification.id n <> k) ->
    JsMap.get k (set_all l m) = JsMap.get k m.
Proof.
  induction l as [|n l IH]; intros m H; simpl; [reflexivity|].
  rewrite IH by (intros n' Hin; apply H; now right).
  apply get_set_other. intros ->. apply (H n); [now left | reflexivity].
Qed.

(** X8: when the cache file holds several records with one id, the last of
    them is the one the service has under that id after reading the file. *)
Theorem last_record_of_an_id_wins t before n after :
  (forall n', In n' after -> Notification.id n' <> Notification.id n) ->
  JsMap.get (Notification.id n)
    (_notifications (this (construct t (Some (before ++ n :: after))))) =
  Some n.
Proof.
  intros H. rewrite construct_run. simpl.
  unfold set_all. rewrite fold_left_app. simpl.
  fold (set_all after
          (JsMap.set (Notification.id n) n
             (fold_left (fun m n0 => JsMap.set (Notification.id n0) n0 m)
                before JsMap.empty))).
  rewrite get_set_all_other by exact H.
  apply get_set_same.
Qed.

Lemma last_record_of_an_id_wins_witness :
  (forall n', In n' [plain_record 6] ->
              Notification.id n' <> Notification.id (plain_record 5)) /\
  JsMap.get 5
    (_notifications
       (this (construct None
                (Some ([Notification.set_popup true (plain_record 5)]
                       ++ plain_record 5 :: [plain_record 6]))))) =
  Some (plain_record 5).
Proof.
  assert (H : forall n', In n' [plain_record 6] ->
                         Notification.id n' <> Notification.id (plain_record 5)).
  { intros n' [<-|[]]. discriminate. }
  split; [exact H|].
  exact (last_record_of_an_id_wins None
           [Notification.set_popup true (plain_record 5)]
           (plain_record 5) [plain_record 6] H).
Defined.

(** ** Popups, do-not-disturb and the expiry timer *)

Lemma get_filter_absent (f : Z * Notification.t -> bool) k m :
  ~ In k (JsMap.keys m) -> JsMap.get k (filter f m) = None.
Proof.
  unfold JsMap.keys.
  induction m as [|[k0 v0] r IH]; simpl; [reflexivity|].
  intros Hn. destruct (f (k0, v0)); simpl.
  - destruct (k0 =? k) eqn:E; [apply Z.eqb_eq in E; tauto|].
    apply IH. tauto.
  - apply IH. tauto.
Qed.

(** With no key twice in the registry, the map that [popups] fills is the
    registry without the entries whose popup flag is not set. *)
Lemma popups_fill acc (m : JsMap.t Notification.t) :
  NoDup (JsMap.keys acc ++ JsMap.keys m) ->
  fold_left
    (fun map e =>
       if Notification.popup (snd e) then JsMap.set (fst e) (snd e) map
       else map) m acc =
  acc ++ filter (fun e => Notification.popup (snd e)) m.
Proof.
  revert acc. induction m as [|[k v] r IH]; intros acc Hnd; simpl.
  - now rewrite app_nil_r.
  - simpl in Hnd. destruct (Notification.popup v).
    + rewrite set_absent.
      * rewrite IH.
        -- now rewrite <- app_assoc.
        -- unfold JsMap.keys in *. rewrite map_app, <- app_assoc. exact Hnd.
      * apply not_in_keys_has_false. intros Hin.
        apply NoDup_remove_2 in Hnd. apply Hnd, in_or_app. now left.
    + apply IH. now apply NoDup_remove_1 in Hnd.
Qed.

Lemma popups_filter (s : NotificationsService) :
  NoDup (JsMap.keys (_notifications s)) ->
  popups s = filter (fun e => Notification.popup (snd e)) (_notifications s).
Proof. intros H. unfold popups. now rewrite popups_fill. Qed.

Lemma get_popups k (s : NotificationsService) :
  NoDup (JsMap.keys (_notifications s)) ->
  JsMap.get k (popups s) =
  match JsMap.get k (_notifications s) with
  | Some n => if Notification.popup n then Some n else None
  | None => None
  end.
Proof.
  intros Hnd0. rewrite popups_filter by exact Hnd0. revert Hnd0.
  unfold JsMap.keys.
  induction (_notifications s) as [|[k0 v0] r IH]; simpl; [reflexivity|].
  intros Hnd. inversion Hnd as [|? ? Hn Hnd']; subst.
  destruct (k0 =? k) eqn:E.
  - apply Z.eqb_eq in E. subst k0.
    destruct (Notification.popup v0); simpl.
    + now rewrite Z.eqb_refl.
    + now apply get_filter_absent.
  - destruct (Notification.popup v0); simpl; [rewrite E|]; now apply IH.
Qed.

(** X9: when no key occurs twice in the registry, the [popups] view holds
    under an id exactly the record the registry holds under it, if that
    record's popup flag is set, and nothing otherwise. *)
Theorem popups_are_the_flagged_records k n (s : NotificationsService) :
  NoDup (JsMap.keys (_notifications s)) ->
  JsMap.get k (popups s) = Some n <->
  JsMap.get k (_notifications s) = Some n /\ Notification.popup n = true.
Proof.
  intros Hnd. rewrite get_popups by exact Hnd.
  destruct (JsMap.get k (_notifications s)) as [n0|].
  - destruct (Notification.popup n0) eqn:E; split.
    + intros H. injection H as <-. auto.
    + intros [H _]. exact H.
    + discriminate.
    + intros [H Hp]. injection H as <-. congruence.
  - split; [discriminate | intros [H _]; discriminate].
Qed.

Lemma popups_are_the_flagged_records_witness :
  NoDup (JsMap.keys (_notifications (this after_first))) /\
  JsMap.get 0 (popups (this after_first)) =
    Some (Notify_record env0 0 "App" "icon.png" "Hi" "body" ["a1"; "Open"]
            no_hints false).
Proof.
  assert (H : NoDup (JsMap.keys (_notifications (this after_first))))
    by (vm_compute; repeat constructor; intros []).
  split; [exact H|].
  apply (popups_are_the_flagged_records 0 _ (this after_first) H).
  split; reflexivity.
Defined.

Lemma set_dnd_run value w :
  set_dnd value w =
  (tt,
   {| this := {| _notifications := _notifications (this w);
                 _dnd := value;
                 _idCount := _idCount (this w);
                 _timeout := _timeout (this w) |};
      cache_file := cache_file w;
      trace := trace w ++ [Emit "changed" None] |}).
Proof. unfold set_dnd. run_method. reflexivity. Qed.

(** X10: setting do-not-disturb changes no record, writes no file and
    emits changed only; a [Notify] served after it stores its record with
    the popup flag equal to the negation of the value set, so with
    do-not-disturb on the new record is in the registry and in the cache
    file but not among the popups. *)
Theorem dnd_decides_popup
  value env appName replacesId appIcon summary body acts hints w :
  registry_ok (_notifications (this w)) ->
  let w1 := snd (set_dnd value w) in
  let r := Notify env appName replacesId appIcon summary body acts hints w1 in
  let n := Notify_record env (fst r) appName appIcon summary body acts hints
             value in
  _notifications (this w1) = _notifications (this w) /\
  cache_file w1 = cache_file w /\
  trace w1 = trace w ++ [Emit "changed" None] /\
  JsMap.get (fst r) (_notifications (this (snd r))) = Some n /\
  Notification.popup n = negb value /\
  In (Notification.spread_action_popup n)
     (match cache_file (snd r) with Some doc => doc | None => [] end) /\
  JsMap.get (fst r) (popups (this (snd r))) = if value then None else Some n.
Proof.
  intros Hok w1 r n. subst w1 r n.
  rewrite set_dnd_run. simpl. rewrite Notify_run. simpl.
  unfold Notify_id. simpl.
  set (id := if replacesId =? 0 then _idCount (this w) else replacesId).
  set (n := Notify_record env id appName appIcon summary body acts hints value).
  repeat split.
  - apply get_set_same.
  - unfold cache_doc, JsMap.values. rewrite map_map.
    apply in_map_iff. exists (id, n). split; [reflexivity|].
    assert (Hget : JsMap.get id (JsMap.set id n (_notifications (this w)))
                   = Some n) by apply get_set_same.
    revert Hget. generalize (JsMap.set id n (_notifications (this w))).
    intros m. induction m as [|[k v] m IH]; simpl; [discriminate|].
    destruct (k =? id) eqn:E.
    + apply Z.eqb_eq in E. intros H. injection H as ->. left. now subst.
    + intros H. right. now apply IH.
  - rewrite get_popups.
    + simpl. rewrite get_set_same. simpl. now destruct value.
    + simpl. apply registry_ok_set; [reflexivity | exact Hok].
Qed.

Lemma dnd_decides_popup_witness :
  registry_ok (_notifications (this after_first)) /\
  JsMap.get 1
    (_notifications
       (this (snd (Notify env0 "Quiet" 0 "" "Hush" "" [] no_hints
                     (snd (set_dnd true after_first)))))) =
    Some (Notify_record env0 1 "Quiet" "" "Hush" "" [] no_hints true) /\
  JsMap.get 1
    (popups
       (this (snd (Notify env0 "Quiet" 0 "" "Hush" "" [] no_hints
                     (snd (set_dnd true after_first)))))) = None.
Proof.
  assert (H : registry_ok (_notifications (this after_first))).
  { vm_compute. split; repeat constructor. intros []. }
  split; [exact H|].
  destruct (dnd_decides_popup true env0 "Quiet" 0 "" "Hush" "" [] no_hints
              after_first H) as [_ [_ [_ [A [_ [_ B]]]]]].
  split; [exact A | exact B].
Defined.

(** X11: when the timer that a [Notify] call scheduled expires, the record
    the call stored is still in the registry, with the popup flag false
    and its other properties untouched, it is no longer among the popups,
    and the cache file that [Notify] wrote is left as it is. *)
Theorem expired_timer_hides_popup
  env appName replacesId appIcon summary body acts hints w :
  registry_ok (_notifications (this w)) ->
  let r := Notify env appName replacesId appIcon summary body acts hints w in
  let w' := snd (DismissNotification (fst r) (snd r)) in
  In (Timeout (_timeout (this w)) (fst r)) (trace (snd r)) /\
  JsMap.get (fst r) (_notifications (this w')) =
    Some (Notification.set_popup false
            (Notify_record env (fst r) appName appIcon summary body acts
               hints (_dnd (this w)))) /\
  JsMap.get (fst r) (popups (this w')) = None /\
  cache_file w' = cache_file (snd r) /\
  in_sync w'.
Proof.
  intros Hok r w'. subst w' r. rewrite Notify_run. cbv zeta.
  cbn [fst snd].
  set (id := Notify_id replacesId w).
  set (n := Notify_record env id appName appIcon summary body acts hints
              (_dnd (this w))).
  set (m := JsMap.set id n (_notifications (this w))).
  assert (Hget : JsMap.get id m = Some n) by apply get_set_same.
  assert (Hokm : registry_ok m)
    by (apply registry_ok_set; [reflexivity | exact Hok]).
  match goal with
  | |- context [DismissNotification id ?W] =>
      rewrite (DismissNotification_live id n W Hget)
  end. simpl.
  split; [|split; [|split; [|split]]].
  - rewrite !in_app_iff. right. right. now left.
  - apply get_set_same.
  - rewrite get_popups.
    + simpl. now rewrite get_set_same.
    + simpl. apply registry_ok_set; [reflexivity | exact Hokm].
  - reflexivity.
  - unfold in_sync. simpl. f_equal. symmetry.
    now apply cache_doc_set_popup.
Qed.

Lemma expired_timer_hides_popup_witness :
  registry_ok (_notifications (this fresh)) /\
  In (Timeout 3000 0) (trace (snd (first_notify fresh))) /\
  JsMap.get 0
    (popups
       (this (snd (DismissNotification 0 (snd (first_notify fresh)))))) = None.
Proof.
  assert (H : registry_ok (_notifications (this fresh)))
    by (split; constructor).
  destruct (expired_timer_hides_popup env0 "App" 0 "icon.png" "Hi" "body"
              ["a1"; "Open"] no_hints fresh H) as [A [_ [B _]]].
  split; [exact H|]. split; [exact A | exact B].
Defined.

Lemma timeout_Dismiss id w :
  _timeout (this (snd (DismissNotification id w))) = _timeout (this w).
Proof.
  destruct (JsMap.get id (_notifications (this w))) as [n|] eqn:E.
  - now rewrite (DismissNotification_live id n w E).
  - rewrite DismissNotification_absent; [reflexivity|].
    unfold JsMap.has. now rewrite E.
Qed.

Lemma timeout_Close id w :
  _timeout (this (snd (CloseNotification id w))) = _timeout (this w).
Proof.
  destruct (JsMap.has id (_notifications (this w))) eqn:E.
  - now rewrite CloseNotification_live by exact E.
  - now rewrite CloseNotification_absent by exact E.
Qed.

Lemma timeout_forEach_Close ids :
  forall w,
    _timeout (this (snd (forEach CloseNotification ids w))) =
    _timeout (this w).
Proof.
  induction ids as [|id ids IH]; intros w; [reflexivity|].
  now rewrite forEach_cons, IH, timeout_Close.
Qed.

Lemma timeout_serve r w : _timeout (this (serve r w)) = _timeout (this w).
Proof.
  destruct r as [c|id|id|id actionId|value|]; cbn [serve].
  - now rewrite call_run, Notify_run.
  - apply timeout_Dismiss.
  - apply timeout_Close.
  - destruct (JsMap.has id (_notifications (this w))) eqn:E.
    + now rewrite InvokeAction_live by exact E.
    + now rewrite InvokeAction_absent by exact E.
  - now rewrite set_dnd_run.
  - unfold Clear, bind, get_this. apply timeout_forEach_Close.
Qed.

Lemma timeout_serve_all rs :
  forall w, _timeout (this (snd (serve_all rs w))) = _timeout (this w).
Proof.
  induction rs as [|r rs IH]; intros w; [reflexivity|].
  cbn [serve_all]. specialize (IH (serve r w)).
  destruct (serve_all rs (serve r w)). simpl in *.
  now rewrite IH, timeout_serve.
Qed.

Lemma timeout_construct t file :
  _timeout (this (construct t file)) = or_int t 3000.
Proof.
  destruct file as [file|]; [now rewrite construct_run | reflexivity].
Qed.

Lemma timers_app tr1 tr2 : timers (tr1 ++ tr2) = timers tr1 ++ timers tr2.
Proof. apply filter_app. Qed.

Lemma timers_Close id w :
  timers (trace (snd (CloseNotification id w))) = timers (trace w).
Proof.
  destruct (JsMap.has id (_notifications (this w))) eqn:E.
  - rewrite CloseNotification_live by exact E. simpl.
    rewrite timers_app. simpl. apply app_nil_r.
  - now rewrite CloseNotification_absent by exact E.
Qed.

Lemma timers_forEach_Close ids :
  forall w,
    timers (trace (snd (forEach CloseNotification ids w))) = timers (trace w).
Proof.
  induction ids as [|id ids IH]; intros w; [reflexivity|].
  now rewrite forEach_cons, IH, timers_Close.
Qed.

(** X12: in a service constructed with the configured delay [t], however
    many requests it has served, a [Notify] call schedules exactly one
    timer, for the id it returns, with the delay [t], or 3000 when [t] is
    not configured or is 0; and no other request schedules a timer. *)
Theorem one_timer_per_Notify t file rs r :
  let w := snd (serve_all rs (construct t file)) in
  timers (trace (serve r w)) =
  timers (trace w)
  ++ match r with
     | ReqNotify c =>
         [Timeout (match t with
                   | Some 0 | None => 3000
                   | Some delay => delay
                   end)
                  (fst (call c w))]
     | _ => []
     end.
Proof.
  cbv zeta.
  pose proof (timeout_serve_all rs (construct t file)) as Ht.
  rewrite timeout_construct in Ht.
  destruct (serve_all rs (construct t file)) as [ids w]. simpl in *.
  destruct r as [c|id|id|id actionId|value|]; cbn [serve].
  - rewrite call_run, Notify_run. simpl. rewrite Ht.
    rewrite !timers_app. f_equal.
    replace (timers (image_effects
                       (c_summary c
                        ++ string_of_Z (Notify_id (c_replacesId c) w))%string
                       (image_data (c_hints c)))) with (@nil Effect)
      by (now destruct (image_data (c_hints c))).
    simpl. now destruct t as [[| |]|].
  - rewrite app_nil_r.
    destruct (JsMap.get id (_notifications (this w))) as [n|] eqn:E.
    + rewrite (DismissNotification_live id n w E). simpl.
      rewrite timers_app. simpl. apply app_nil_r.
    + rewrite DismissNotification_absent; [reflexivity|].
      unfold JsMap.has. now rewrite E.
  - rewrite app_nil_r. apply timers_Close.
  - rewrite app_nil_r.
    destruct (JsMap.has id (_notifications (this w))) eqn:E.
    + rewrite InvokeAction_live by exact E. simpl.
      rewrite timers_app. simpl. apply app_nil_r.
    + now rewrite InvokeAction_absent by exact E.
  - rewrite app_nil_r, set_dnd_run. simpl.
    rewrite timers_app. simpl. apply app_nil_r.
  - rewrite app_nil_r. unfold Clear, bind, get_this.
    apply timers_forEach_Close.
Qed.

(** ** Notify followed by close, and dismissing twice *)

Lemma delete_appended id (n : Notification.t) m :
  JsMap.has id m = false -> JsMap.delete id (m ++ [(id, n)]) = m.
Proof.
  intros H. unfold JsMap.delete. rewrite filter_app. simpl.
  rewrite Z.eqb_refl. simpl. rewrite app_nil_r.
  now apply delete_absent.
Qed.

(** X13: when the id that a [Notify] call uses is not live, closing the
    notification it returned puts the registry back as it was before the
    call, entry for entry, and the cache file ends as [_cache] writes that
    registry; the counter keeps what the call made of it. *)
Theorem Notify_then_Close_restores
  env appName replacesId appIcon summary body acts hints w :
  JsMap.has (Notify_id replacesId w) (_notifications (this w)) = false ->
  let r := Notify env appName replacesId appIcon summary body acts hints w in
  let w' := snd (CloseNotification (fst r) (snd r)) in
  _notifications (this w') = _notifications (this w) /\
  cache_file w' = Some (cache_doc (_notifications (this w))) /\
  _idCount (this w') = Notify_idCount replacesId w.
Proof.
  intros Habs r w'. subst w' r. rewrite Notify_run. cbv zeta. cbn [fst snd].
  rewrite (set_absent _ _ _ Habs).
  match goal with
  | |- context [CloseNotification ?i ?W] =>
      assert (Hlive : JsMap.has i (_notifications (this W)) = true)
  end.
  { simpl. unfold JsMap.has.
    rewrite <- (set_absent _ _ _ Habs). now rewrite get_set_same. }
  rewrite CloseNotification_live by exact Hlive. simpl.
  rewrite (delete_appended _ _ _ Habs). auto.
Qed.

Lemma Notify_then_Close_restores_witness :
  JsMap.has (Notify_id 0 after_first) (_notifications (this after_first))
  = false /\
  _notifications
    (this (snd (CloseNotification
                  (fst (Notify env0 "B" 0 "" "s" "" [] no_hints after_first))
                  (snd (Notify env0 "B" 0 "" "s" "" [] no_hints
                          after_first))))) =
  _notifications (this after_first).
Proof.
  assert (H : JsMap.has (Notify_id 0 after_first)
                (_notifications (this after_first)) = false) by reflexivity.
  split; [exact H|].
  exact (proj1 (Notify_then_Close_restores env0 "B" 0 "" "s" "" [] no_hints
                  after_first H)).
Defined.

Lemma set_set k (v1 v2 : Notification.t) m :
  JsMap.set k v2 (JsMap.set k v1 m) = JsMap.set k v2 m.
Proof.
  induction m as [|[k0 v0] r IH]; simpl.
  - now rewrite Z.eqb_refl.
  - destruct (k0 =? k) eqn:E; simpl.
    + now rewrite Z.eqb_refl.
    + now rewrite E, IH.
Qed.

(** X14: dismissing a second time changes nothing in the service or in the
    cache file, yet for a live id the events dismissed and changed are
    emitted again. *)
Theorem second_dismissal_only_emits id w :
  let w1 := snd (DismissNotification id w) in
  let w2 := snd (DismissNotification id w1) in
  this w2 = this w1 /\
  cache_file w2 = cache_file w1 /\
  trace w2 =
    trace w1
    ++ (if JsMap.has id (_notifications (this w))
        then [Emit "dismissed" (Some id); Emit "changed" None]
        else []).
Proof.
  cbv zeta. unfold JsMap.has.
  destruct (JsMap.get id (_notifications (this w))) as [n|] eqn:E.
  - rewrite (DismissNotification_live id n w E). simpl.
    match goal with
    | |- context [DismissNotification id ?W] =>
        rewrite (DismissNotification_live id
                   (Notification.set_popup false n) W)
          by (simpl; apply get_set_same)
    end.
    simpl. rewrite set_set. auto.
  - assert (H : JsMap.has id (_notifications (this w)) = false)
      by (unfold JsMap.has; now rewrite E).
    rewrite !(DismissNotification_absent id w H). simpl.
    rewrite (DismissNotification_absent id w H). simpl.
    now rewrite app_nil_r.
Qed.

(** ** The image of a notification *)

Lemma strip_non_alnum_app s1 s2 :
  strip_non_alnum (s1 ++ s2)%string =
  (strip_non_alnum s1 ++ strip_non_alnum s2)%string.
Proof.
  induction s1 as [|c s1 IH]; simpl; [reflexivity|].
  destruct (is_alnum c); simpl; now rewrite IH.
Qed.

Lemma all_alnum_strip s : all_alnum (strip_non_alnum s) = true.
Proof.
  induction s as [|c s IH]; simpl; [reflexivity|].
  destruct (is_alnum c) eqn:E; simpl; [now rewrite E|exact IH].
Qed.

Lemma strip_uint_nonempty d :
  strip_non_alnum (NilZero.string_of_uint d) <> ""%string.
Proof. destruct d; simpl; discriminate. Qed.

Lemma strip_decimal_nonempty z : strip_non_alnum (decimal z) <> ""%string.
Proof.
  unfold decimal. destruct (Z.to_int z) as [d|d]; simpl.
  - apply strip_uint_nonempty.
  - apply strip_uint_nonempty.
Qed.

Lemma strip_exponent_nonempty rest :
  strip_non_alnum ("e+" ++ rest)%string <> ""%string.
Proof. simpl. discriminate. Qed.

Lemma strip_exponent_form_nonempty v :
  strip_non_alnum (exponent_form v) <> ""%string.
Proof.
  unfold exponent_form.
  destruct (drop_trailing_zeros (decimal v)) as [|c [|c' rest]].
  - apply strip_decimal_nonempty.
  - cbn [strip_non_alnum]. destruct (is_alnum c); [discriminate|].
    apply strip_exponent_nonempty.
  - cbn [strip_non_alnum]. destruct (is_alnum c); [discriminate|].
    change (strip_non_alnum
              ("." ++ String c' rest ++ "e+"
               ++ decimal (Z.of_nat (String.length (decimal v)) - 1))%string
            <> ""%string).
    rewrite !strip_non_alnum_app.
    intros H. apply (strip_exponent_nonempty
                       (decimal (Z.of_nat (String.length (decimal v)) - 1))).
    rewrite strip_non_alnum_app.
    destruct (strip_non_alnum "."); destruct (strip_non_alnum (String c' rest));
      simpl in H; try discriminate; exact H.
Qed.

Lemma strip_string_of_positive_nonempty x :
  strip_non_alnum (string_of_positive x) <> ""%string.
Proof.
  unfold string_of_positive.
  destruct (x <? two_53); [apply strip_decimal_nonempty|].
  destruct (_ <=? 21);
    [apply strip_decimal_nonempty | apply strip_exponent_form_nonempty].
Qed.

Lemma strip_minus s : strip_non_alnum (String "-" s) = strip_non_alnum s.
Proof. reflexivity. Qed.

Lemma strip_string_of_Z_nonempty z :
  strip_non_alnum (string_of_Z z) <> ""%string.
Proof.
  destruct z as [|p|p]; unfold string_of_Z.
  - cbv. discriminate.
  - apply strip_string_of_positive_nonempty.
  - rewrite strip_minus. apply strip_string_of_positive_nonempty.
Qed.

Lemma append_nonempty_r s1 s2 :
  s2 <> ""%string -> (s1 ++ s2)%string <> ""%string.
Proof. destruct s1; simpl; [auto | discriminate]. Qed.

(** X15: the image of the record that [Notify] stores.  With an image-data
    hint it is the summary followed by the id, without the characters that
    are not letters or digits: a name that is never empty, so the icon is
    never used in its place, and that is the name of the file saved.
    Without the hint it is the icon path if a file exists there, and null
    otherwise. *)
Theorem Notify_image env appName replacesId appIcon summary body acts hints w :
  let r := Notify env appName replacesId appIcon summary body acts hints w in
  exists n,
    JsMap.get (fst r) (_notifications (this (snd r))) = Some n /\
    match image_data hints with
    | Some data =>
        let name := strip_non_alnum (summary ++ string_of_Z (fst r))%string in
        Notification.image n = Some name /\
        name <> ""%string /\
        all_alnum name = true /\
        In (SavePng name data) (trace (snd r))
    | None =>
        Notification.image n =
        (if file_test_exists env appIcon then Some appIcon else None) /\
        trace (snd r) =
        trace w
        ++ [Timeout (_timeout (this w)) (fst r); EnsureDirectory;
            WriteFile (cache_doc (_notifications (this (snd r))));
            Emit "notified" (Some (fst r)); Emit "changed" None]
    end.
Proof.
  cbv zeta. eexists. split; [apply Notify_stores|].
  rewrite Notify_run. cbn [fst snd trace this _notifications].
  unfold Notify_record. cbn [Notification.image].
  destruct (image_data hints) as [data|].
  - assert (Hne : strip_non_alnum
                    (summary ++ string_of_Z (Notify_id replacesId w))%string
                  <> ""%string).
    { rewrite strip_non_alnum_app. apply append_nonempty_r.
      apply strip_string_of_Z_nonempty. }
    split; [|split; [exact Hne|split; [apply all_alnum_strip|]]].
    + unfold or_str.
      destruct (strip_non_alnum
                  (summary ++ string_of_Z (Notify_id replacesId w))%string);
        [congruence | reflexivity].
    + rewrite !in_app_iff. right. left. simpl. auto.
  - split; reflexivity.
Qed.

(** For the id 10^21 the name ends in the exponent form of the id, without
    its sign. *)
Lemma image_name_in_exponent_form :
  option_map Notification.image
    (JsMap.get (10 ^ 21)
       (_notifications
          (this (snd (Notify env0 "App" (10 ^ 21) "" "Hi" "" [] image_hint
                        fresh))))) = Some (Some "Hi1e21"%string).
Proof. vm_compute. reflexivity. Qed.

(** ** More on the actions and the urgency stored *)

Lemma pairs_ind (P : list string -> Prop) :
  P [] ->
  (forall i, P [i]) ->
  (forall i l rest, P rest -> P (i :: l :: rest)) ->
  forall acts, P acts.
Proof.
  intros H0 H1 H2 acts.
  assert (H : P acts /\ forall a, P (a :: acts)).
  { induction acts as [|a acts [IHa IHb]].
    - split; [exact H0 | exact H1].
    - split; [apply IHb|]. intros b. now apply H2. }
  exact (proj1 H).
Qed.

(** X16: the actions that [Notify] stores never have the empty string as a
    label, every id among them is an element of the list passed, and there
    are no more of them than half the length of the list, rounded up. *)
Theorem parse_actions_bounds acts :
  Forall (fun a => Action.label a <> Some ""%string /\ In (Action.id a) acts)
         (parse_actions acts) /\
  (2 * List.length (parse_actions acts) <= List.length acts + 1)%nat.
Proof.
  rewrite parse_actions_pair_actions.
  induction acts as [|i|i l rest [IHa IHb]] using pairs_ind.
  - split; [constructor | simpl; lia].
  - split; [|simpl; lia].
    constructor; [|constructor]. simpl. split; [discriminate | now left].
  - assert (IHa' : Forall (fun a => Action.label a <> Some ""%string /\
                                    In (Action.id a) (i :: l :: rest))
                          (pair_actions rest)).
    { eapply Forall_impl; [|exact IHa]. simpl. intros a [A B]. auto. }
    destruct l as [|c l]; cbn [pair_actions].
    + split; [exact IHa' | simpl; lia].
    + split; [|simpl in *; lia].
      constructor; [|exact IHa']. simpl. split; [discriminate | auto].
Qed.

Lemma decode_urgency_range hints :
  decode_urgency hints = Some "normal"%string \/
  decode_urgency hints = Some "critical"%string \/
  decode_urgency hints = None.
Proof.
  unfold decode_urgency.
  destruct (hint_urgency hints) as [b|]; [|now left].
  destruct (N.eq_dec b 0) as [->|H0]; [now left|].
  destruct (N.eq_dec b 1) as [->|H1]; [now left|].
  destruct (N.eq_dec b 2) as [->|H2]; [right; now left|].
  right. right. apply nth_error_None.
  destruct b as [|q]; [congruence|]. unfold or_num, _URGENCY.
  cbn [List.length]. lia.
Qed.

(** X17: whatever the hints are, the urgency of the record that [Notify]
    stores is "normal", "critical" or undefined, and never "low". *)
Theorem stored_urgency_is_never_low
  env appName replacesId appIcon summary body acts hints w :
  let r := Notify env appName replacesId appIcon summary body acts hints w in
  exists n,
    JsMap.get (fst r) (_notifications (this (snd r))) = Some n /\
    Notification.urgency n <> Some "low"%string /\
    (Notification.urgency n = Some "normal"%string \/
     Notification.urgency n = Some "critical"%string \/
     Notification.urgency n = None).
Proof.
  cbv zeta. eexists. split; [apply Notify_stores|].
  unfold Notify_record. cbn [Notification.urgency].
  pose proof (decode_urgency_range hints) as H.
  split; [|exact H].
  destruct H as [H|[H|H]]; rewrite H; discriminate.
Qed.

(** ** What a call leaves alone *)

Lemma keys_set_absent k (v : Notification.t) m :
  JsMap.has k m = false -> JsMap.keys (JsMap.set k v m) = JsMap.keys m ++ [k].
Proof.
  intros H. rewrite set_absent by exact H.
  unfold JsMap.keys. now rewrite map_app.
Qed.

(** X21: a [Notify] call, whatever its [replacesId], changes the entry of
    the id it returns and no other: every other key keeps its record, the
    keys keep their order, the returned id being added at the end if it
    was not live, and the do-not-disturb flag and the delay stay. *)
Theorem Notify_touches_one_entry
  env appName replacesId appIcon summary body acts hints w :
  let r := Notify env appName replacesId appIcon summary body acts hints w in
  (forall k, k <> fst r ->
     JsMap.get k (_notifications (this (snd r))) =
     JsMap.get k (_notifications (this w))) /\
  JsMap.keys (_notifications (this (snd r))) =
    (if JsMap.has (fst r) (_notifications (this w))
     then JsMap.keys (_notifications (this w))
     else JsMap.keys (_notifications (this w)) ++ [fst r]) /\
  _dnd (this (snd r)) = _dnd (this w) /\
  _timeout (this (snd r)) = _timeout (this w).
Proof.
  cbv zeta. rewrite Notify_run. cbn [fst snd this _notifications _dnd _timeout].
  split; [|split; [|split; reflexivity]].
  - intros k Hk. now apply get_set_other.
  - destruct (JsMap.has (Notify_id replacesId w) (_notifications (this w)))
      eqn:E.
    + now apply keys_set_present.
    + now apply keys_set_absent.
Qed.

Lemma length_delete_present k (m : JsMap.t Notification.t) :
  NoDup (JsMap.keys m) -> JsMap.has k m = true ->
  S (List.length (JsMap.delete k m)) = List.length m.
Proof.
  unfold JsMap.keys, JsMap.has, JsMap.delete.
  induction m as [|[k0 v0] r IH]; simpl; [discriminate|].
  intros Hnd. inversion Hnd as [|? ? Hn Hnd']; subst.
  destruct (k0 =? k) eqn:E; simpl.
  - intros _. apply Z.eqb_eq in E. subst k0. f_equal.
    change (List.length (JsMap.delete k r) = List.length r).
    rewrite delete_absent; [reflexivity|].
    now apply not_in_keys_has_false.
  - intros H. f_equal. now apply IH.
Qed.

Lemma keys_delete k (m : JsMap.t Notification.t) :
  JsMap.keys (JsMap.delete k m) =
  filter (fun k' => negb (k' =? k)) (JsMap.keys m).
Proof.
  unfold JsMap.keys, JsMap.delete.
  induction m as [|[k0 v0] r IH]; simpl; [reflexivity|].
  destruct (k0 =? k); simpl; [|f_equal]; apply IH.
Qed.

(** X22: when no key occurs twice, closing a live id removes that one entry
    and nothing else: the registry is one entry shorter, has no record
    under the id, has under every other key the record of before, and the
    one bus signal emitted is NotificationClosed with the id and the
    reason 3. *)
Theorem Close_removes_one_entry id w :
  NoDup (JsMap.keys (_notifications (this w))) ->
  JsMap.has id (_notifications (this w)) = true ->
  let w' := snd (CloseNotification id w) in
  S (List.length (_notifications (this w'))) =
    List.length (_notifications (this w)) /\
  JsMap.get id (_notifications (this w')) = None /\
  (forall k, k <> id ->
     JsMap.get k (_notifications (this w')) =
     JsMap.get k (_notifications (this w))) /\
  JsMap.keys (_notifications (this w')) =
    filter (fun k => negb (k =? id)) (JsMap.keys (_notifications (this w))) /\
  bus_signals (trace w') =
    bus_signals (trace w)
    ++ [EmitSignal "NotificationClosed" (Variant_uu id 3)].
Proof.
  intros Hnd Hlive w'. subst w'.
  rewrite CloseNotification_live by exact Hlive. simpl.
  split; [now apply length_delete_present|].
  split; [apply get_delete_same|].
  split; [intros k Hk; now apply get_delete_other|].
  split.
  - apply keys_delete.
  - rewrite bus_signals_app. reflexivity.
Qed.

Lemma Close_removes_one_entry_witness :
  NoDup (JsMap.keys (_notifications (this restarted_5_6))) /\
  JsMap.has 5 (_notifications (this restarted_5_6)) = true /\
  JsMap.keys
    (_notifications (this (snd (CloseNotification 5 restarted_5_6)))) = [6].
Proof.
  assert (H1 : NoDup (JsMap.keys (_notifications (this restarted_5_6))))
    by (vm_compute; repeat constructor; simpl; intuition discriminate).
  assert (H2 : JsMap.has 5 (_notifications (this restarted_5_6)) = true)
    by reflexivity.
  split; [exact H1|]. split; [exact H2|].
  destruct (Close_removes_one_entry 5 restarted_5_6 H1 H2)
    as [_ [_ [_ [A _]]]].
  rewrite A. reflexivity.
Defined.

(** ** Allocation without ids of the caller's *)

Lemma keys_delete_subset k k' (m : JsMap.t Notification.t) :
  In k' (JsMap.keys (JsMap.delete k m)) -> In k' (JsMap.keys m).
Proof.
  unfold JsMap.keys, JsMap.delete. intros H.
  apply in_map_iff in H. destruct H as [e [He Hin]].
  apply filter_In in Hin. apply in_map_iff. exists e. tauto.
Qed.

Lemma keys_below_Close id w :
  keys_below_counter w -> keys_below_counter (snd (CloseNotification id w)).
Proof.
  unfold keys_below_counter. intros H.
  rewrite registry_Close, idCount_Close.
  apply Forall_forall. intros k Hk. apply keys_delete_subset in Hk.
  rewrite Forall_forall in H. now apply H.
Qed.

Lemma keys_below_forEach_Close ids :
  forall w,
    keys_below_counter w ->
    keys_below_counter (snd (forEach CloseNotification ids w)).
Proof.
  induction ids as [|id ids IH]; intros w H; [exact H|].
  rewrite forEach_cons. now apply IH, keys_below_Close.
Qed.

Lemma keys_below_serve r w :
  allocating r ->
  - two_53 <= _idCount (this w) < two_53 ->
  keys_below_counter w -> keys_below_counter (serve r w).
Proof.
  unfold keys_below_counter.
  intros Hr Hb H. destruct r as [c|id|id|id actionId|value|]; cbn [serve].
  - simpl in Hr. rewrite call_run, Notify_run. simpl.
    unfold Notify_id, Notify_idCount. rewrite Hr. simpl.
    rewrite js_add1_exact by lia.
    assert (Habs : JsMap.has (_idCount (this w)) (_notifications (this w))
                   = false).
    { apply not_in_keys_has_false. intros Hin.
      rewrite Forall_forall in H. specialize (H _ Hin). lia. }
    rewrite keys_set_absent by exact Habs.
    apply Forall_app. split.
    + eapply Forall_impl; [|exact H]. simpl. intros; lia.
    + constructor; [lia | constructor].
  - rewrite idCount_Dismiss.
    destruct (JsMap.get id (_notifications (this w))) as [n|] eqn:E.
    + rewrite (DismissNotification_live id n w E). simpl.
      rewrite keys_set_present; [exact H|].
      unfold JsMap.has. now rewrite E.
    + rewrite DismissNotification_absent; [exact H|].
      unfold JsMap.has. now rewrite E.
  - now apply keys_below_Close.
  - destruct (JsMap.has id (_notifications (this w))) eqn:E.
    + rewrite InvokeAction_live by exact E. simpl.
      apply Forall_forall. intros k Hk. apply keys_delete_subset in Hk.
      rewrite Forall_forall in H. now apply H.
    + now rewrite InvokeAction_absent by exact E.
  - rewrite set_dnd_run. exact H.
  - unfold Clear, bind, get_this. now apply keys_below_forEach_Close.
Qed.

Lemma keys_below_serve_all rs :
  forall w,
    Forall allocating rs ->
    - two_53 <= _idCount (this w) ->
    _idCount (this w) + Z.of_nat (List.length rs) <= two_53 ->
    keys_below_counter w ->
    keys_below_counter (snd (serve_all rs w)).
Proof.
  induction rs as [|r rs IH]; intros w Hall Hlo Hhi H; [exact H|].
  inversion Hall as [|? ? Hr Hrs]; subst.
  cbn [List.length] in Hhi. rewrite Nat2Z.inj_succ in Hhi.
  assert (Hb : - two_53 <= _idCount (this w) < two_53) by lia.
  pose proof (serve_idCount_step r w Hb) as Hstep.
  cbn [serve_all].
  assert (H' : keys_below_counter (snd (serve_all rs (serve r w)))).
  { apply IH; [exact Hrs | lia | lia |]. now apply keys_below_serve. }
  now destruct (serve_all rs (serve r w)).
Qed.

(** X23: in a service started without a cache file and never given an id
    by a caller, while no more than 2^53 requests have been served, a
    [Notify] call that passes 0 is returned an id that is not live, so it
    adds a record and overwrites none, whatever dismissals, closes, invoked
    actions and clears were served before. *)
Theorem allocation_never_overwrites t rs c :
  Forall allocating rs ->
  Z.of_nat (List.length rs) <= two_53 ->
  c_replacesId c = 0 ->
  let w := snd (serve_all rs (construct t None)) in
  JsMap.has (fst (call c w)) (_notifications (this w)) = false /\
  _notifications (this (snd (call c w))) =
    _notifications (this w)
    ++ [(fst (call c w),
         Notify_record (c_env c) (fst (call c w)) (c_appName c) (c_appIcon c)
           (c_summary c) (c_body c) (c_acts c) (c_hints c) (_dnd (this w)))].
Proof.
  intros Hall Hlen Hc w.
  assert (Hk : keys_below_counter w).
  { apply keys_below_serve_all; [exact Hall | | | constructor].
    - simpl. unfold two_53. lia.
    - simpl. lia. }
  assert (Habs : JsMap.has (_idCount (this w)) (_notifications (this w))
                 = false).
  { apply not_in_keys_has_false. intros Hin.
    unfold keys_below_counter in Hk. rewrite Forall_forall in Hk.
    specialize (Hk _ Hin). lia. }
  rewrite call_run, Notify_run. cbn [fst snd this _notifications].
  unfold Notify_id. rewrite Hc. simpl Z.eqb. cbv iota.
  split; [exact Habs | now apply set_absent].
Qed.

Lemma allocation_never_overwrites_witness :
  Forall allocating
    [ReqNotify (allocating_call "A"); ReqClose 0;
     ReqNotify (allocating_call "B")] /\
  Z.of_nat (List.length [ReqNotify (allocating_call "A"); ReqClose 0;
                         ReqNotify (allocating_call "B")]) <= two_53 /\
  c_replacesId (allocating_call "C") = 0 /\
  JsMap.has
    (fst (call (allocating_call "C")
            (snd (serve_all [ReqNotify (allocating_call "A"); ReqClose 0;
                             ReqNotify (allocating_call "B")]
                    (construct None None)))))
    (_notifications
       (this (snd (serve_all [ReqNotify (allocating_call "A"); ReqClose 0;
                              ReqNotify (allocating_call "B")]
                     (construct None None))))) = false.
Proof.
  assert (H1 : Forall allocating
                 [ReqNotify (allocating_call "A"); ReqClose 0;
                  ReqNotify (allocating_call "B")])
    by (repeat (apply Forall_cons || apply Forall_nil);
        exact I || reflexivity).
  assert (Hlen : Z.of_nat (List.length [ReqNotify (allocating_call "A");
                                        ReqClose 0;
                                        ReqNotify (allocating_call "B")])
                 <= two_53) by (vm_compute; discriminate).
  assert (H2 : c_replacesId (allocating_call "C") = 0) by reflexivity.
  split; [exact H1|]. split; [exact Hlen|]. split; [exact H2|].
  exact (proj1 (allocation_never_overwrites None _ (allocating_call "C")
                  H1 Hlen H2)).
Defined.
